(** * The editor's state-management core ([src/components/App.jsx])

    A shallow embedding of the [App] component of the style editor: the
    mutation pipeline ([onStyleChanged]), undo and redo, the layer-list
    operators, the source reconciler ([fetchSources]) with its fetch
    callbacks, and the undo/redo key handler.

    The component is a JavaScript object with a mutable [this.state], updated
    through React's [setState], and a handful of collaborators it calls:
    the style validator, the persistence store, the revision store, the diff
    messengers, the URL normaliser, [fetch] and the console.  The embedding
    threads a [World] through every handler: the component state, the queue
    of [setState] patches React has not applied yet, the revision store, and
    the chronological list of calls made to the outside. *)

From Stdlib Require Import ZArith Lia Ascii.
From stdpp Require Import base option list strings gmap.


(** ** JavaScript values

    What a JSON body parses to, plus [undefined], which a property read of a
    missing key produces.  An object keeps its properties in insertion
    order. *)

#[local] Set Warnings "-register-all".

Inductive JS : Type :=
| JUndefined
| JNull
| JBool (b : bool)
| JNum (n : Z)
| JStr (s : string)
| JArr (items : list JS)
| JObj (props : list (string * JS)).

Lemma JS_eq_dec : ∀ x y : JS, {x = y} + {x ≠ y}.
Proof.
  fix IH 1. intros x y.
  decide equality.
  - apply Bool.bool_dec.
  - apply Z.eq_dec.
  - apply String.string_dec.
  - apply (List.list_eq_dec IH).
  - apply List.list_eq_dec. intros [k1 v1] [k2 v2].
    destruct (String.string_dec k1 k2) as [->|Hk]; [|right; congruence].
    destruct (IH v1 v2) as [->|Hv]; [left; reflexivity|right; congruence].
Defined.

#[global] Instance JS_eq_decision : EqDecision JS := JS_eq_dec.

(** [obj[key]] for an own property of an object; the keys of a parsed object
    are distinct. *)
Fixpoint assoc {A} (key : string) (props : list (string * A)) : option A :=
  match props with
  | [] => None
  | (k, v) :: rest => if decide (k = key) then Some v else assoc key rest
  end.

(** [v.hasOwnProperty(key)].  [None] is the TypeError JavaScript raises when
    [v] is [null] or [undefined], or when [v] is an object whose own
    [hasOwnProperty] property hides the method (a parsed value is never a
    function); a primitive is boxed and has no such own property; an array
    owns its indices and [length] only, and the keys asked for here are never
    of that form. *)
Definition hasOwnProperty (v : JS) (key : string) : option bool :=
  match v with
  | JUndefined | JNull => None
  | JObj props =>
    if bool_decide (is_Some (assoc "hasOwnProperty" props)) then None
    else Some (bool_decide (is_Some (assoc key props)))
  | _ => Some false
  end.

(** [v.key], a property read: a TypeError on [null] and [undefined],
    [undefined] when the property is missing. *)
Definition getProp (v : JS) (key : string) : option JS :=
  match v with
  | JUndefined | JNull => None
  | JObj props => Some (default JUndefined (assoc key props))
  | _ => Some JUndefined
  end.

(** The values a [for (... of v)] loop visits: the elements of an array, the
    characters of a string (of ASCII text: one per character); anything else
    is not iterable (TypeError). *)
Definition iterate (v : JS) : option (list JS) :=
  match v with
  | JArr items => Some items
  | JStr s => Some ((λ c, JStr (String c EmptyString)) <$> String.list_ascii_of_string s)
  | _ => None
  end.

(** ** The data model *)

(** A layout or paint block, and the other free-form parts of a document:
    objects compared structurally, so a finite map from property name to
    value. *)
Abbreviation Props := (gmap string JS).

(** A layer: its [id], its optional [layout] block (which holds the
    [visibility] flag), and every other property it carries. *)
Record Layer : Type := {
  layer_id : string;
  layer_layout : option Props;
  layer_other : Props
}.

(** A source as the document declares it: [val.type], and [val.url] when the
    source owns that property. *)
Record SourceSpec : Type := {
  src_type : string;
  src_url : option string
}.

(** The style document.  [doc_sources] is in the order [Object.entries]
    lists the keys. *)
Record Document : Type := {
  doc_layers : list Layer;
  doc_sources : list (string * SourceSpec);
  doc_glyphs : option string;
  doc_sprite : option string;
  doc_other : Props
}.

(** [{...mapStyle, layers: changedLayers}] *)
Definition with_layers (d : Document) (ls : list Layer) : Document :=
  {| doc_layers := ls; doc_sources := doc_sources d; doc_glyphs := doc_glyphs d;
     doc_sprite := doc_sprite d; doc_other := doc_other d |}.

(** The derived description of a source kept in [state.sources]. *)
Record Descriptor : Type := {
  desc_type : string;
  desc_layers : list JS
}.

#[global] Instance Descriptor_eq_decision : EqDecision Descriptor.
Proof. solve_decision. Defined.

(** An entry of the validator's answer. *)
Record ValidationError : Type := { message : string }.

(** The part of [this.state] the core works on. *)
Record State : Type := {
  errors : list string;
  infos : list string;
  mapStyle : Document;
  selectedLayerIndex : Z;
  sources : gmap string Descriptor
}.

(** The argument of a [setState] call: the fields it names. *)
Record Patch : Type := {
  p_errors : option (list string);
  p_infos : option (list string);
  p_mapStyle : option Document;
  p_selectedLayerIndex : option Z;
  p_sources : option (gmap string Descriptor)
}.

(** React merges a patch into the state field by field. *)
Definition apply_patch (st : State) (p : Patch) : State :=
  {| errors := default (errors st) (p_errors p);
     infos := default (infos st) (p_infos p);
     mapStyle := default (mapStyle st) (p_mapStyle p);
     selectedLayerIndex := default (selectedLayerIndex st) (p_selectedLayerIndex p);
     sources := default (sources st) (p_sources p) |}.

(** ** The revision store *)

Module RevisionStore.

(** Modelled from the spec: the revision store ([libs/revisions], not part
    of the sources at hand) "keeps an ordered history of accepted document
    snapshots and a movable cursor".  A store that never received a
    revision has no current one. *)
Record t : Type := { revisions : list Document; currentIdx : nat }.

Definition empty : t := {| revisions := []; currentIdx := 0 |}.

Definition current (rs : t) : option Document := revisions rs !! currentIdx rs.

(** Modelled from the spec: "appends doc as the new head revision and
    discards any redo-forward history". *)
Definition addRevision (d : Document) (rs : t) : t :=
  let kept := take (S (currentIdx rs)) (revisions rs) in
  {| revisions := kept ++ [d]; currentIdx := length kept |}.

(** Modelled from the spec: "if cursor has a predecessor, move cursor back,
    return that revision; else return current unchanged". *)
Definition undo (rs : t) : t * option Document :=
  let rs' := match currentIdx rs with
             | S i => {| revisions := revisions rs; currentIdx := i |}
             | O => rs
             end in
  (rs', current rs').

(** Modelled from the spec: "redo(): symmetric". *)
Definition redo (rs : t) : t * option Document :=
  let rs' := if decide (S (currentIdx rs) < length (revisions rs))
             then {| revisions := revisions rs; currentIdx := S (currentIdx rs) |}
             else rs in
  (rs', current rs').

End RevisionStore.

(** ** The world a handler runs in *)

(** A call to a collaborator outside the component. *)
Inductive Effect : Type :=
| EValidate (d : Document)            (* styleSpec.validate(d, styleSpec.latest) *)
| EUpdateFonts (glyphs : option string) (* this.updateFonts(newStyle.glyphs) *)
| EUpdateIcons (sprite : option string) (* this.updateIcons(newStyle.sprite) *)
| ESave (d : Document)                (* this.styleStore.save(d) *)
| EFetch (key url : string)           (* fetch(url, {mode: 'cors'}) for source key *)
| EConsoleWarn (text : string)
| EConsoleDebug (text : string)
| EConsoleError (text url : string).

(** [batching] tells whether React defers [setState] (a handler React itself
    dispatched) or applies it at once (a promise callback, a listener added
    with [addEventListener]).  [pending] is the queue of deferred patches,
    oldest first; [effects] is oldest first too. *)
Record World : Type := {
  state : State;
  batching : bool;
  pending : list Patch;
  revisionStore : RevisionStore.t;
  effects : list Effect
}.

Definition apply_patches (st : State) (ps : list Patch) : State :=
  foldl apply_patch st ps.

(** What React does when the handler returns: the queue is applied in
    order. *)
Definition flush (w : World) : World :=
  {| state := apply_patches (state w) (pending w); batching := batching w;
     pending := []; revisionStore := revisionStore w; effects := effects w |}.

(** [this.setState(p)] *)
Definition setState (p : Patch) (w : World) : World :=
  if batching w
  then {| state := state w; batching := true; pending := pending w ++ [p];
          revisionStore := revisionStore w; effects := effects w |}
  else {| state := apply_patch (apply_patches (state w) (pending w)) p;
          batching := false; pending := [];
          revisionStore := revisionStore w; effects := effects w |}.

(** One more call to the outside. *)
Definition emit (e : Effect) (w : World) : World :=
  {| state := state w; batching := batching w; pending := pending w;
     revisionStore := revisionStore w; effects := effects w ++ [e] |}.

Definition with_revisionStore (rs : RevisionStore.t) (w : World) : World :=
  {| state := state w; batching := batching w; pending := pending w;
     revisionStore := rs; effects := effects w |}.

(** The documents handed to the persistence store, in order. *)
Definition saves (es : list Effect) : list Document :=
  omap (λ e, match e with ESave d => Some d | _ => None end) es.

(** The documents handed to the validator, in order. *)
Definition validations (es : list Effect) : list Document :=
  omap (λ e, match e with EValidate d => Some d | _ => None end) es.

(** The fetches issued, in order. *)
Definition fetches (es : list Effect) : list (string * string) :=
  omap (λ e, match e with EFetch k u => Some (k, u) | _ => None end) es.

(** ** Library functions the component calls *)

(** [clamp(number, lower, upper)] of lodash, on numbers: the upper bound is
    applied first, then the lower one. *)
Definition clamp (number lower upper : Z) : Z :=
  let number := if bool_decide (number ≤ upper)%Z then number else upper in
  if bool_decide (lower ≤ number)%Z then number else lower.

(** [array.splice(start, deleteCount, ...items)] on a copy, for a start that
    is a natural number (JavaScript caps it at the length, as [take] and
    [drop] do). *)
Definition splice {A} (start deleteCount : nat) (items : list A) (array : list A) : list A :=
  take start array ++ items ++ drop (start + deleteCount) array.

(** [arrayMove(array, from, to)] of react-sortable-hoc: the element at
    [from] is cut out and put back at [to].  With [from] past the end the
    library would insert [undefined]; [onMoveLayer] clamps its indices first
    and never gets there (lemma [arrayMove_in_range] below), so that case
    hands the array back. *)
Definition arrayMove {A} (array : list A) (from to : nat) : list A :=
  match array !! from with
  | Some x => splice to 0 [x] (splice from 1 [] array)
  | None => array
  end.

(** Modelled from the spec: [style.indexOfLayer] ([libs/style], not part of
    the sources at hand) "locates the layer by id": the position of the first
    layer that carries the id, and no position when none does. *)
Definition indexOfLayer (layers : list Layer) (layerId : string) : option nat :=
  fst <$> list_find (λ l, layer_id l = layerId) layers.

(** ** The layer operators, as functions on the layer list

    Each handler copies the list, changes the copy and submits it; these are
    the changed copies.  An id that names no layer leaves the operator
    without a result: what [indexOfLayer] answers then is not fixed by the
    spec. *)

(** [onLayerDestroy], lines 312-315. *)
Definition destroyedLayers (layers : list Layer) (layerId : string) : option (list Layer) :=
  idx ← indexOfLayer layers layerId;
  Some (splice idx 1 [] layers).

(** [cloneDeep(layer)] with [id + "-copy"]: the clone equals the original in
    everything but the id. *)
Definition clonedLayer (layer : Layer) : Layer :=
  {| layer_id := layer_id layer +:+ "-copy";
     layer_layout := layer_layout layer; layer_other := layer_other layer |}.

(** [onLayerCopy], lines 320-326. *)
Definition copiedLayers (layers : list Layer) (layerId : string) : option (list Layer) :=
  idx ← indexOfLayer layers layerId;
  layer ← layers !! idx;
  Some (splice idx 0 [clonedLayer layer] layers).

(** [onLayerVisibilityToggle], lines 335-339, on the layer found. *)
Definition toggledLayer (layer : Layer) : Layer :=
  let changedLayout : Props := default ∅ (layer_layout layer) in
  let visibility :=
    if bool_decide (changedLayout !! "visibility" = Some (JStr "none"))
    then JStr "visible" else JStr "none" in
  {| layer_id := layer_id layer;
     layer_layout := Some (<["visibility" := visibility]> changedLayout);
     layer_other := layer_other layer |}.

(** The flag as a reader of the layer sees it: [layer.layout.visibility] when
    there is a layout block holding one, and the layer counts as shown unless
    the flag is ["none"]. *)
Definition visibility_of (layer : Layer) : option JS :=
  layer_layout layer ≫= (λ m : Props, m !! "visibility").

Definition shown (layer : Layer) : bool :=
  bool_decide (visibility_of layer ≠ Some (JStr "none")).

(** [onLayerVisibilityToggle], lines 331-340. *)
Definition toggledLayers (layers : list Layer) (layerId : string) : option (list Layer) :=
  idx ← indexOfLayer layers layerId;
  layer ← layers !! idx;
  Some (<[idx := toggledLayer layer]> layers).

(** [onLayerIdChange], lines 346-352. *)
Definition renamedLayers (layers : list Layer) (oldId newId : string) : option (list Layer) :=
  idx ← indexOfLayer layers oldId;
  layer ← layers !! idx;
  Some (<[idx := {| layer_id := newId; layer_layout := layer_layout layer;
                    layer_other := layer_other layer |}]> layers).

(** [onLayerChanged], lines 358-360. *)
Definition replacedLayers (layers : list Layer) (layer : Layer) : option (list Layer) :=
  idx ← indexOfLayer layers (layer_id layer);
  Some (<[idx := layer]> layers).

(** ** Key events *)

Record KeyEvent : Type := {
  metaKey : bool;
  shiftKey : bool;
  ctrlKey : bool;
  keyCode : Z
}.

(** [toUpperCase] on the ASCII letters, which is what a platform name is
    made of. *)
Definition upper_ascii (c : ascii) : ascii :=
  let n := nat_of_ascii c in
  if (97 <=? n)%nat && (n <=? 122)%nat then ascii_of_nat (n - 32) else c.

Fixpoint toUpperCase (s : string) : string :=
  match s with
  | EmptyString => EmptyString
  | String c rest => String (upper_ascii c) (toUpperCase rest)
  end.

(** [navigator.platform.toUpperCase().indexOf('MAC') >= 0] *)
Definition isMacPlatform (platform : string) : bool :=
  bool_decide (is_Some (String.index 0 "MAC" (toUpperCase platform))).

(** ** Fetch outcomes *)

(** How the promise chain of one fetch ends up at the handlers of
    [fetchSources]: rejected (no response, or a body that is not JSON), or
    with the parsed body. *)
Inductive FetchResult : Type :=
| FetchRejected
| FetchJson (json : JS).

(** [for (let layer of items) sources[key].layers.push(layer.id)]: the map
    after the pushes made, and whether the loop ran to its end.  The pushes
    go into the array the state's descriptor holds, so those made before a
    TypeError stay. *)
Fixpoint push_layer_ids (key : string) (items : list JS)
    (srcs : gmap string Descriptor) : gmap string Descriptor * bool :=
  match items with
  | [] => (srcs, true)
  | layer :: rest =>
    match srcs !! key with
    | None => (srcs, false)
    | Some d =>
      match getProp layer "id" with
      | None => (srcs, false)
      | Some v =>
        push_layer_ids key rest
          (<[key := {| desc_type := desc_type d; desc_layers := desc_layers d ++ [v] |}]> srcs)
      end
    end
  end.

(** A change made inside an object [this.state] refers to, without
    [setState]. *)
Definition mutate_sources (srcs : gmap string Descriptor) (w : World) : World :=
  {| state := {| errors := errors (state w); infos := infos (state w);
                 mapStyle := mapStyle (state w);
                 selectedLayerIndex := selectedLayerIndex (state w);
                 sources := srcs |};
     batching := batching w; pending := pending w;
     revisionStore := revisionStore w; effects := effects w |}.

(** ** The component's handlers *)

Section App.

(** The collaborators: [styleSpec.validate(_, styleSpec.latest)],
    [normalizeSourceURL(_, MapboxGl.accessToken)] ([None] when it throws),
    and the two diff messengers. *)
Context (validate : Document → list ValidationError).
Context (normalizeSourceURL : string → option string).
Context (undoMessages redoMessages : Document → Document → list string).

Definition saveStyle (snapshotStyle : Document) (w : World) : World :=
  emit (ESave snapshotStyle) w.

(** [updateFonts] and [updateIcons] start a download whose callback only
    touches [state.spec]; the call is what is kept. *)
Definition updateFonts (urlTemplate : option string) (w : World) : World :=
  emit (EUpdateFonts urlTemplate) w.

Definition updateIcons (baseUrl : option string) (w : World) : World :=
  emit (EUpdateIcons baseUrl) w.

(** One turn of the loop of [fetchSources] (lines 374-419): [acc] is the
    local [sourceList] and the calls made so far, [known] is
    [this.state.sources]. *)
Definition fetchSources_entry (known : gmap string Descriptor)
    (acc : gmap string Descriptor * list Effect)
    (entry : string * SourceSpec) : gmap string Descriptor * list Effect :=
  let key := entry.1 in
  let val := entry.2 in
  if bool_decide (is_Some (acc.1 !! key)) then acc
  else
    let sourceList :=
      <[key := {| desc_type := src_type val; desc_layers := [] |}]> acc.1 in
    if bool_decide (known !! key = None) && bool_decide (src_type val = "vector")
    then match src_url val with
         | Some url =>
           match normalizeSourceURL url with
           | Some url' => (sourceList, acc.2 ++ [EFetch key url'])
           | None =>
             (sourceList,
              acc.2 ++ [EConsoleWarn "Failed to normalizeSourceURL: "; EFetch key url])
           end
         | None => (sourceList, acc.2)
         end
    else (sourceList, acc.2).

Definition fetchSources_loop (known : gmap string Descriptor)
    (entries : list (string * SourceSpec)) : gmap string Descriptor * list Effect :=
  foldl (fetchSources_entry known) (known, []) entries.

Definition fetchSources (w : World) : World :=
  let known := sources (state w) in
  let r := fetchSources_loop known (doc_sources (mapStyle (state w))) in
  let w := foldl (λ w e, emit e w) w r.2 in
  if bool_decide (known = r.1) then w
  else
    setState {| p_errors := None; p_infos := None; p_mapStyle := None;
                p_selectedLayerIndex := None; p_sources := Some r.1 |}
             (emit (EConsoleDebug "Setting sources") w).

(** The handlers chained on the fetch issued for [key] at [url] (lines
    395-417), run when the fetch settles. *)
Definition fetchResolved (key url : string) (r : FetchResult) (w : World) : World :=
  let failed := emit (EConsoleError "Failed to process sources for '%s'" url) in
  match r with
  | FetchRejected => failed w
  | FetchJson json =>
    match hasOwnProperty json "vector_layers" with
    | None => failed w
    | Some false => w
    | Some true =>
      match getProp json "vector_layers" ≫= iterate with
      | None => failed w
      | Some items =>
        let r := push_layer_ids key items (sources (state w)) in
        let w := mutate_sources r.1 w in
        if r.2
        then setState {| p_errors := None; p_infos := None; p_mapStyle := None;
                         p_selectedLayerIndex := None; p_sources := Some r.1 |}
                      (emit (EConsoleDebug ("Updating source: " +:+ key)) w)
        else failed w
      end
    end
  end.

Definition onStyleChanged (newStyle : Document) (save : bool) (w : World) : World :=
  let errs := validate newStyle in
  let w := emit (EValidate newStyle) w in
  let w :=
    if bool_decide (length errs = 0%nat) then
      let w := if bool_decide (doc_glyphs newStyle ≠ doc_glyphs (mapStyle (state w)))
               then updateFonts (doc_glyphs newStyle) w else w in
      let w := if bool_decide (doc_sprite newStyle ≠ doc_sprite (mapStyle (state w)))
               then updateIcons (doc_sprite newStyle) w else w in
      let w := with_revisionStore
                 (RevisionStore.addRevision newStyle (revisionStore w)) w in
      let w := if save then saveStyle newStyle w else w in
      setState {| p_errors := Some []; p_infos := None; p_mapStyle := Some newStyle;
                  p_selectedLayerIndex := None; p_sources := None |} w
    else
      setState {| p_errors := Some (message <$> errs); p_infos := None;
                  p_mapStyle := None; p_selectedLayerIndex := None;
                  p_sources := None |} w in
  fetchSources w.

(** [onUndo].  A store with no revision hands back [undefined], on which
    the diff messenger (outside the sources at hand) has no defined answer:
    the handler is then left without a result. *)
Definition onUndo (w : World) : option World :=
  let r := RevisionStore.undo (revisionStore w) in
  let w := with_revisionStore r.1 w in
  activeStyle ← r.2;
  let messages := undoMessages (mapStyle (state w)) activeStyle in
  let w := saveStyle activeStyle w in
  Some (setState {| p_errors := None; p_infos := Some messages;
                    p_mapStyle := Some activeStyle;
                    p_selectedLayerIndex := None; p_sources := None |} w).

Definition onRedo (w : World) : option World :=
  let r := RevisionStore.redo (revisionStore w) in
  let w := with_revisionStore r.1 w in
  activeStyle ← r.2;
  let messages := redoMessages (mapStyle (state w)) activeStyle in
  let w := saveStyle activeStyle w in
  Some (setState {| p_errors := None; p_infos := Some messages;
                    p_mapStyle := Some activeStyle;
                    p_selectedLayerIndex := None; p_sources := None |} w).

Definition onLayersChange (changedLayers : list Layer) (w : World) : World :=
  let changedStyle := with_layers (mapStyle (state w)) changedLayers in
  onStyleChanged changedStyle true w.

Definition onMoveLayer (oldIndex newIndex : Z) (w : World) : World :=
  let layers := doc_layers (mapStyle (state w)) in
  let oldIndex := clamp oldIndex 0 (Z.of_nat (length layers) - 1) in
  let newIndex := clamp newIndex 0 (Z.of_nat (length layers) - 1) in
  if bool_decide (oldIndex = newIndex) then w
  else
    let w :=
      if bool_decide (oldIndex = selectedLayerIndex (state w))
      then setState {| p_errors := None; p_infos := None; p_mapStyle := None;
                       p_selectedLayerIndex := Some newIndex;
                       p_sources := None |} w
      else w in
    let layers := arrayMove layers (Z.to_nat oldIndex) (Z.to_nat newIndex) in
    onLayersChange layers w.

Definition onLayerDestroy (layerId : string) (w : World) : option World :=
  remainingLayers ← destroyedLayers (doc_layers (mapStyle (state w))) layerId;
  Some (onLayersChange remainingLayers w).


Definition onLayerVisibilityToggle (layerId : string) (w : World) : option World :=
  changedLayers ← toggledLayers (doc_layers (mapStyle (state w))) layerId;
  Some (onLayersChange changedLayers w).



Definition onLayerSelect (layerId : string) (w : World) : option World :=
  idx ← indexOfLayer (doc_layers (mapStyle (state w))) layerId;
  Some (setState {| p_errors := None; p_infos := None; p_mapStyle := None;
                    p_selectedLayerIndex := Some (Z.of_nat idx);
                    p_sources := None |} w).

Definition handleKeyPress (platform : string) (e : KeyEvent) (w : World) : option World :=
  if isMacPlatform platform then
    if metaKey e && shiftKey e && bool_decide (keyCode e = 90%Z) then onRedo w
    else if metaKey e && bool_decide (keyCode e = 90%Z) then onUndo w
    else Some w
  else
    if ctrlKey e && bool_decide (keyCode e = 90%Z) then onUndo w
    else if ctrlKey e && bool_decide (keyCode e = 89%Z) then onRedo w
    else Some w.

End App.

(** ** What [render] shows *)

(** The layer the editor panel and the map highlight get (line 484 with the
    test of line 509): [layers[selectedLayerIndex]] when the list is not
    empty and holds an element there, nothing otherwise. *)
Definition selectedLayer (st : State) : option Layer :=
  let layers := doc_layers (mapStyle st) in
  if bool_decide (0 < length layers)
  then if bool_decide (0 ≤ selectedLayerIndex st)%Z
       then layers !! Z.to_nat (selectedLayerIndex st)
       else None
  else None.

(** The message panel is drawn when there is a message (line 525). *)
Definition bottomPanelShown (st : State) : bool :=
  bool_decide (0 < length (errors st) + length (infos st)).

(** ** The defaults table of the style specification *)

(** [styleSpec.latest] as [updateRootSpec] sees it: the [$root] object, each
    of whose fields is an object that may hold [values], and the rest. *)
Record StyleSpec : Type := {
  spec_root : gmap string Props;
  spec_rest : Props
}.

(** [updateRootSpec], lines 40-51. *)
Definition updateRootSpec (spec : StyleSpec) (fieldName : string) (newValues : JS)
    : StyleSpec :=
  {| spec_root :=
       <[fieldName := <["values" := newValues]>
                        (default ∅ (spec_root spec !! fieldName))]> (spec_root spec);
     spec_rest := spec_rest spec |}.

(** ** Dialogs, inspect mode and the bare-key shortcuts *)

(** Where the keyboard focus is ([document.activeElement]). *)
Inductive Element : Type :=
| Body
| MapCanvas
| OtherElement.

#[global] Instance Element_eq_decision : EqDecision Element.
Proof. solve_decision. Defined.

(** The part of the component and of the page the shortcuts work on:
    [state.isOpen], [state.inspectModeEnabled], the browser's [localStorage],
    the focus, and whether [document.querySelector(".mapboxgl-canvas")] finds
    the map's canvas.  Each of these handlers calls [setState] once at most,
    so deferring it or not gives the same state. *)
Record Ui : Type := {
  isOpen : gmap string bool;
  inspectModeEnabled : bool;
  localStorage : gmap string string;
  activeElement : Element;
  canvasMounted : bool
}.

(** [state.isOpen] as the constructor sets it (lines 171-178). *)
Definition initialIsOpen (storage : gmap string string) : gmap string bool :=
  <["survey" := negb (bool_decide (is_Some (storage !! "survey")))]>
    (<["export" := false]>
       (<["shortcuts" := false]>
          (<["open" := false]>
             (<["sources" := false]> (<["settings" := false]> ∅))))).

(** [toggleModal], lines 469-480; a name [isOpen] does not hold reads as
    [undefined], whose negation is [true]. *)
Definition toggleModal (modalName : string) (ui : Ui) : Ui :=
  {| isOpen := <[modalName := negb (default false (isOpen ui !! modalName))]> (isOpen ui);
     inspectModeEnabled := inspectModeEnabled ui;
     localStorage := if bool_decide (modalName = "survey")
                     then <["survey" := ""]> (localStorage ui)
                     else localStorage ui;
     activeElement := activeElement ui;
     canvasMounted := canvasMounted ui |}.

(** [changeInspectMode], lines 365-369, on this part of the state. *)
Definition changeInspectMode (ui : Ui) : Ui :=
  {| isOpen := isOpen ui;
     inspectModeEnabled := negb (inspectModeEnabled ui);
     localStorage := localStorage ui;
     activeElement := activeElement ui;
     canvasMounted := canvasMounted ui |}.

(** What a shortcut's handler does (lines 75-118). *)
Inductive Shortcut : Type :=
| ShortcutModal (modalName : string)
| ShortcutInspect
| ShortcutMap.

(** The table [keyCodes], lines 64-73. *)
Definition keyCodes : list (string * Z) :=
  [("esc", 27%Z); ("?", 191%Z); ("o", 79%Z); ("e", 69%Z);
   ("s", 83%Z); ("d", 68%Z); ("i", 73%Z); ("m", 77%Z)].

Definition keyCode_of (name : string) : Z := default 0%Z (assoc name keyCodes).

(** The table [shortcuts], lines 75-118, in its order. *)
Definition shortcuts : list (Z * Shortcut) :=
  [(keyCode_of "?", ShortcutModal "shortcuts");
   (keyCode_of "o", ShortcutModal "open");
   (keyCode_of "e", ShortcutModal "export");
   (keyCode_of "d", ShortcutModal "sources");
   (keyCode_of "s", ShortcutModal "settings");
   (keyCode_of "i", ShortcutInspect);
   (keyCode_of "m", ShortcutMap)].

(** [shortcut.handler(e)].  Focusing the canvas throws when the query finds
    no element, and nothing has changed then. *)
Definition runShortcut (s : Shortcut) (ui : Ui) : Ui :=
  match s with
  | ShortcutModal modalName => toggleModal modalName ui
  | ShortcutInspect => changeInspectMode ui
  | ShortcutMap =>
    if canvasMounted ui
    then {| isOpen := isOpen ui; inspectModeEnabled := inspectModeEnabled ui;
            localStorage := localStorage ui; activeElement := MapCanvas;
            canvasMounted := true |}
    else ui
  end.

(** The [keyup] listener of the constructor, lines 120-134: escape takes the
    focus off the event's target, back to the body; any other key runs the
    first shortcut with its key code, when the focus is on the body. *)
Definition onKeyUp (code : Z) (ui : Ui) : Ui :=
  if bool_decide (code = keyCode_of "esc")
  then {| isOpen := isOpen ui; inspectModeEnabled := inspectModeEnabled ui;
          localStorage := localStorage ui; activeElement := Body;
          canvasMounted := canvasMounted ui |}
  else if bool_decide (activeElement ui = Body)
       then match list_find (λ shortcut : Z * Shortcut, shortcut.1 = code) shortcuts with
            | Some (_, shortcut) => runShortcut shortcut.2 ui
            | None => ui
            end
       else ui.

(** ** Readings of the calls made *)

(** The glyph and sprite downloads asked for, in order. *)
Definition font_requests (es : list Effect) : list (option string) :=
  omap (λ e, match e with EUpdateFonts g => Some g | _ => None end) es.

Definition icon_requests (es : list Effect) : list (option string) :=
  omap (λ e, match e with EUpdateIcons g => Some g | _ => None end) es.


(** What [push(layer.id)] appends for an entry that is not [null]. *)
Definition layer_name (layer : JS) : JS := default JUndefined (getProp layer "id").

(** The calls one run of [fetchSources] makes from a given state. *)
Definition reconcile_calls (normalizeSourceURL : string → option string)
    (st : State) : list Effect :=
  let r := fetchSources_loop normalizeSourceURL (sources st)
             (doc_sources (mapStyle st)) in
  r.2 ++ (if bool_decide (sources st = r.1)
          then [] else [EConsoleDebug "Setting sources"]).


(** ** Sample data *)

Definition accept_all : Document → list ValidationError := λ _, [].


Definition keep_url : string → option string := Some.

Definition plain_layer (name : string) : Layer :=
  {| layer_id := name; layer_layout := None; layer_other := ∅ |}.

Definition sample_document (ls : list Layer) (srcs : list (string * SourceSpec)) : Document :=
  {| doc_layers := ls; doc_sources := srcs; doc_glyphs := None;
     doc_sprite := None; doc_other := ∅ |}.

Definition sample_world (d : Document) (selected : Z) (batched : bool) : World :=
  {| state := {| errors := []; infos := []; mapStyle := d;
                 selectedLayerIndex := selected; sources := ∅ |};
     batching := batched; pending := [];
     revisionStore := {| RevisionStore.revisions := [d]; RevisionStore.currentIdx := 0 |};
     effects := [] |}.

(** The body [{vector_layers: [{id: "roads"}]}]. *)
Definition roads_body : JS :=
  JObj [("vector_layers", JArr [JObj [("id", JStr "roads")]])].

Definition describe_undo : Document → Document → list string :=
  λ _ _, ["Undo: layers changed"].

Definition describe_redo : Document → Document → list string :=
  λ _ _, ["Redo: layers changed"].

(** The calls a handler added to those made before it ran. *)
Definition new_effects (before after : World) : list Effect :=
  drop (length (effects before)) (effects after).


(** ** The patches and calls of the pipeline, by name *)

(** The patch of the rejecting branch. *)
Definition rejection (errs : list ValidationError) : Patch :=
  {| p_errors := Some (message <$> errs); p_infos := None; p_mapStyle := None;
     p_selectedLayerIndex := None; p_sources := None |}.

(** The patch of the accepting branch, and the calls that branch makes before
    it hands the patch to [setState]. *)
Definition acceptance (newStyle : Document) : Patch :=
  {| p_errors := Some []; p_infos := None; p_mapStyle := Some newStyle;
     p_selectedLayerIndex := None; p_sources := None |}.

Definition submit_calls (newStyle : Document) (save : bool) (current : Document)
    : list Effect :=
  (if bool_decide (doc_glyphs newStyle ≠ doc_glyphs current)
   then [EUpdateFonts (doc_glyphs newStyle)] else [])
  ++ (if bool_decide (doc_sprite newStyle ≠ doc_sprite current)
      then [EUpdateIcons (doc_sprite newStyle)] else [])
  ++ (if save then [ESave newStyle] else []).

(** The patch [onMoveLayer] hands to [setState]. *)
Definition selection (index : Z) : Patch :=
  {| p_errors := None; p_infos := None; p_mapStyle := None;
     p_selectedLayerIndex := Some index; p_sources := None |}.

(** * Properties *)

(** ** [setState], [emit] and [flush] *)

Lemma apply_patches_app st ps qs :
  apply_patches st (ps ++ qs) = apply_patches (apply_patches st ps) qs.
Proof. apply foldl_app. Qed.

Lemma flush_setState p w :
  state (flush (setState p w)) = apply_patch (state (flush w)) p.
Proof.
  unfold setState. destruct (batching w); simpl; [|done].
  by rewrite apply_patches_app.
Qed.

Lemma setState_revisionStore p w : revisionStore (setState p w) = revisionStore w.
Proof. unfold setState. by destruct (batching w). Qed.

Lemma setState_effects p w : effects (setState p w) = effects w.
Proof. unfold setState. by destruct (batching w). Qed.

Lemma flush_emit e w : state (flush (emit e w)) = state (flush w).
Proof. done. Qed.

Lemma emit_all_effects es w :
  effects (foldl (λ w e, emit e w) w es) = effects w ++ es.
Proof.
  revert w. induction es as [|e es IH]; intros w; simpl.
  - by rewrite app_nil_r.
  - rewrite IH. simpl. by rewrite <- app_assoc.
Qed.

Lemma emit_all_frame es w :
  state (foldl (λ w e, emit e w) w es) = state w
  ∧ pending (foldl (λ w e, emit e w) w es) = pending w
  ∧ batching (foldl (λ w e, emit e w) w es) = batching w
  ∧ revisionStore (foldl (λ w e, emit e w) w es) = revisionStore w.
Proof.
  revert w. induction es as [|e es IH]; intros w; simpl; [done|].
  destruct (IH (emit e w)) as (-> & -> & -> & ->). done.
Qed.

Lemma flush_emit_all es w :
  state (flush (foldl (λ w e, emit e w) w es)) = state (flush w).
Proof.
  destruct (emit_all_frame es w) as (Hs & Hp & _).
  unfold flush; simpl. by rewrite Hs, Hp.
Qed.

Lemma saves_app es fs : saves (es ++ fs) = saves es ++ saves fs.
Proof. apply omap_app. Qed.

Lemma validations_app es fs : validations (es ++ fs) = validations es ++ validations fs.
Proof. apply omap_app. Qed.

Lemma fetches_app es fs : fetches (es ++ fs) = fetches es ++ fetches fs.
Proof. apply omap_app. Qed.

(** ** The reconciler's loop *)

(** What the loop may call: [fetch], and the console on a URL it could not
    normalise. *)
Definition fetch_or_warning (e : Effect) : Prop :=
  match e with
  | EFetch _ _ | EConsoleWarn _ => True
  | _ => False
  end.

Section Reconciler.

Context (normalizeSourceURL : string → option string).

Lemma fetchSources_entry_calls known acc entry :
  ∃ es, (fetchSources_entry normalizeSourceURL known acc entry).2 = acc.2 ++ es
        ∧ Forall fetch_or_warning es
        ∧ ∀ k u, (k, u) ∈ fetches es →
            k = entry.1 ∧ src_type entry.2 = "vector" ∧ is_Some (src_url entry.2).
Proof.
  assert (Hnone : ∀ l : list Effect,
    ∃ es, l = l ++ es ∧ Forall fetch_or_warning es
          ∧ ∀ k u, (k, u) ∈ fetches es →
              k = entry.1 ∧ src_type entry.2 = "vector" ∧ is_Some (src_url entry.2)).
  { intros l. exists []. rewrite app_nil_r. split_and!; [done|constructor|].
    intros k u Hin. by apply elem_of_nil in Hin. }
  unfold fetchSources_entry.
  repeat case_bool_decide; simpl; try apply Hnone.
  destruct (src_url entry.2) as [url|] eqn:Hurl; simpl; [|apply Hnone].
  destruct (normalizeSourceURL url) as [url'|]; simpl;
    eexists; (split_and!; [reflexivity|repeat constructor|]);
    intros k u Hin; simpl in Hin; apply list_elem_of_singleton in Hin;
    injection Hin as -> ->; eauto.
Qed.

Lemma fetchSources_fold_calls known entries acc :
  ∃ es, (foldl (fetchSources_entry normalizeSourceURL known) acc entries).2 = acc.2 ++ es
        ∧ Forall fetch_or_warning es
        ∧ ∀ k u, (k, u) ∈ fetches es →
            ∃ val, (k, val) ∈ entries ∧ src_type val = "vector" ∧ is_Some (src_url val).
Proof.
  revert acc. induction entries as [|entry entries IH]; intros acc; simpl.
  - exists []. rewrite app_nil_r. split_and!; [done|constructor|].
    intros k u Hin. by apply elem_of_nil in Hin.
  - destruct (fetchSources_entry_calls known acc entry) as (es1 & E1 & F1 & P1).
    destruct (IH (fetchSources_entry normalizeSourceURL known acc entry))
      as (es2 & E2 & F2 & P2).
    exists (es1 ++ es2). split_and!.
    + by rewrite E2, E1, app_assoc.
    + by apply Forall_app.
    + intros k u Hin. rewrite fetches_app in Hin.
      apply elem_of_app in Hin as [Hin|Hin].
      * destruct (P1 k u Hin) as (-> & Hty & Hurl).
        exists entry.2. split_and!; [|done..].
        destruct entry; simpl. apply list_elem_of_here.
      * destruct (P2 k u Hin) as (val & Hval & Hty & Hurl).
        exists val. split_and!; [|done..]. by apply list_elem_of_further.
Qed.

(** [fetchSources] adds calls of its own to those made before, touches no
    revision, and of the state rewrites [sources] alone. *)
Lemma fetchSources_calls w :
  ∃ es, effects (fetchSources normalizeSourceURL w) = effects w ++ es
        ∧ saves es = [] ∧ validations es = []
        ∧ ∀ k u, (k, u) ∈ fetches es →
            ∃ val, (k, val) ∈ doc_sources (mapStyle (state w))
                   ∧ src_type val = "vector" ∧ is_Some (src_url val).
Proof.
  unfold fetchSources, fetchSources_loop.
  destruct (fetchSources_fold_calls (sources (state w))
              (doc_sources (mapStyle (state w))) (sources (state w), []))
    as (es & E & F & P).
  simpl in E. rewrite E.
  assert (Hs : saves es = [] ∧ validations es = []).
  { clear -F. induction F as [|e es He _ [IH1 IH2]]; [done|].
    destruct e; simpl in *; try done. }
  destruct Hs as [Hs Hv].
  case_bool_decide.
  - exists es. by rewrite emit_all_effects.
  - exists (es ++ [EConsoleDebug "Setting sources"]).
    rewrite setState_effects. simpl. rewrite emit_all_effects.
    rewrite saves_app, validations_app, Hs, Hv, app_assoc.
    split_and!; [done..|].
    intros k u Hin. rewrite fetches_app in Hin. simpl in Hin.
    rewrite app_nil_r in Hin. exact (P k u Hin).
Qed.

Lemma fetchSources_revisionStore w :
  revisionStore (fetchSources normalizeSourceURL w) = revisionStore w.
Proof.
  unfold fetchSources.
  destruct (emit_all_frame
              (fetchSources_loop normalizeSourceURL (sources (state w))
                 (doc_sources (mapStyle (state w)))).2 w) as (_ & _ & _ & Hr).
  case_bool_decide; [done|].
  by rewrite setState_revisionStore.
Qed.

Lemma fetchSources_state w :
  ∃ srcs, state (flush (fetchSources normalizeSourceURL w)) =
          {| errors := errors (state (flush w)); infos := infos (state (flush w));
             mapStyle := mapStyle (state (flush w));
             selectedLayerIndex := selectedLayerIndex (state (flush w));
             sources := srcs |}.
Proof.
  unfold fetchSources.
  case_bool_decide.
  - exists (sources (state (flush w))). rewrite flush_emit_all.
    by destruct (state (flush w)).
  - eexists. rewrite flush_setState, flush_emit, flush_emit_all.
    unfold apply_patch; simpl. reflexivity.
Qed.

End Reconciler.

(** ** The mutation pipeline *)

Section Pipeline.

Context (validate : Document → list ValidationError).
Context (normalizeSourceURL : string → option string).

Lemma onStyleChanged_rejected newStyle save w :
  validate newStyle ≠ [] →
  onStyleChanged validate normalizeSourceURL newStyle save w =
  fetchSources normalizeSourceURL
    (setState (rejection (validate newStyle)) (emit (EValidate newStyle) w)).
Proof.
  intros Hbad. unfold onStyleChanged.
  case_bool_decide as Hlen; [|done].
  destruct (validate newStyle); [done|discriminate].
Qed.

Lemma onStyleChanged_accepted newStyle save w :
  validate newStyle = [] →
  onStyleChanged validate normalizeSourceURL newStyle save w =
  fetchSources normalizeSourceURL
    (setState (acceptance newStyle)
       {| state := state w; batching := batching w; pending := pending w;
          revisionStore := RevisionStore.addRevision newStyle (revisionStore w);
          effects := effects w
                     ++ EValidate newStyle
                        :: submit_calls newStyle save (mapStyle (state w)) |}).
Proof.
  intros Hok. unfold onStyleChanged, submit_calls. rewrite Hok.
  rewrite bool_decide_eq_true_2 by done.
  unfold updateFonts, updateIcons, saveStyle, with_revisionStore, emit.
  destruct (decide (doc_glyphs newStyle = doc_glyphs (mapStyle (state w)))) as [Hg|Hg];
    [rewrite !(bool_decide_eq_false_2 (doc_glyphs newStyle ≠ _)) by (simpl; tauto)
    |rewrite !(bool_decide_eq_true_2 (doc_glyphs newStyle ≠ _)) by (simpl; tauto)];
    simpl;
    (destruct (decide (doc_sprite newStyle = doc_sprite (mapStyle (state w)))) as [Hs|Hs];
     [rewrite !(bool_decide_eq_false_2 (doc_sprite newStyle ≠ _)) by (simpl; tauto)
     |rewrite !(bool_decide_eq_true_2 (doc_sprite newStyle ≠ _)) by (simpl; tauto)]);
    destruct save; simpl; rewrite <- ?app_assoc; reflexivity.
Qed.

(** The committed state after a submit, field by field. *)
Lemma onStyleChanged_state newStyle save w :
  let st := state (flush w) in
  let st' := state (flush (onStyleChanged validate normalizeSourceURL newStyle save w)) in
  errors st' = message <$> validate newStyle
  ∧ infos st' = infos st
  ∧ selectedLayerIndex st' = selectedLayerIndex st
  ∧ mapStyle st' = (if bool_decide (validate newStyle = []) then newStyle else mapStyle st).
Proof.
  intros st st'. subst st st'.
  case_bool_decide as Hok.
  - rewrite onStyleChanged_accepted by done.
    match goal with |- context [fetchSources _ ?x] =>
      destruct (fetchSources_state normalizeSourceURL x) as [srcs ->] end.
    rewrite !flush_setState. simpl. by rewrite Hok.
  - rewrite onStyleChanged_rejected by done.
    match goal with |- context [fetchSources _ ?x] =>
      destruct (fetchSources_state normalizeSourceURL x) as [srcs ->] end.
    rewrite !flush_setState. done.
Qed.

Lemma onStyleChanged_effects newStyle save w :
  ∃ es, effects (onStyleChanged validate normalizeSourceURL newStyle save w)
        = effects w ++ es
        ∧ validations es = [newStyle]
        ∧ saves es = (if bool_decide (validate newStyle = []) && save
                      then [newStyle] else []).
Proof.
  case_bool_decide as Hok.
  - rewrite onStyleChanged_accepted by done.
    match goal with |- context [fetchSources _ ?x] =>
      destruct (fetchSources_calls normalizeSourceURL x) as (es & -> & Hs & Hv & _) end.
    rewrite setState_effects. simpl. rewrite <- app_assoc.
    eexists. split; [reflexivity|].
    simpl. rewrite validations_app, saves_app, Hs, Hv, !app_nil_r.
    unfold submit_calls.
    repeat case_bool_decide; destruct save; done.
  - rewrite onStyleChanged_rejected by done.
    match goal with |- context [fetchSources _ ?x] =>
      destruct (fetchSources_calls normalizeSourceURL x) as (es & -> & Hs & Hv & _) end.
    rewrite setState_effects. simpl. rewrite <- app_assoc.
    eexists. split; [reflexivity|].
    simpl. by rewrite Hs, Hv.
Qed.

Lemma onStyleChanged_revisionStore newStyle save w :
  revisionStore (onStyleChanged validate normalizeSourceURL newStyle save w) =
  (if bool_decide (validate newStyle = [])
   then RevisionStore.addRevision newStyle (revisionStore w)
   else revisionStore w).
Proof.
  case_bool_decide as Hok.
  - rewrite onStyleChanged_accepted by done.
    by rewrite fetchSources_revisionStore, setState_revisionStore.
  - rewrite onStyleChanged_rejected by done.
    by rewrite fetchSources_revisionStore, setState_revisionStore.
Qed.

End Pipeline.





(** ** Undo and redo *)







(** ** The undo/redo key handler *)

(** C9: on a Mac platform, meta with shift and key code 90 is redo, and meta
    without shift and key code 90 is undo; elsewhere ctrl with key code 89 is
    redo and ctrl with key code 90 is undo; and whatever the event, the
    handler does what one redo does, or what one undo does, or nothing. *)
Theorem handleKeyPress_dispatch
    (undoMessages redoMessages : Document → Document → list string)
    (platform : string) (e : KeyEvent) (w : World) :
  let handle := handleKeyPress undoMessages redoMessages platform e w in
  (isMacPlatform platform = true →
     (metaKey e = true → shiftKey e = true → keyCode e = 90%Z →
        handle = onRedo redoMessages w)
     ∧ (metaKey e = true → shiftKey e = false → keyCode e = 90%Z →
        handle = onUndo undoMessages w))
  ∧ (isMacPlatform platform = false →
     (ctrlKey e = true → keyCode e = 89%Z → handle = onRedo redoMessages w)
     ∧ (ctrlKey e = true → keyCode e = 90%Z → handle = onUndo undoMessages w))
  ∧ (handle = onRedo redoMessages w ∨ handle = onUndo undoMessages w ∨ handle = Some w)
  ∧ isMacPlatform "MacIntel" = true
  ∧ isMacPlatform "Win32" = false.
Proof.
  intros handle. subst handle. unfold handleKeyPress.
  split_and!.
  - intros ->. split.
    + intros -> -> ->. done.
    + intros -> -> ->. done.
  - intros ->. split.
    + intros -> ->. done.
    + intros -> ->. done.
  - destruct (isMacPlatform platform), (metaKey e), (shiftKey e), (ctrlKey e);
      simpl; repeat case_bool_decide; auto.
  - done.
  - done.
Qed.

(** ** The fetch callbacks *)

(** C10: a body without a [vector_layers] property makes the success handler
    return with the world exactly as it found it (no layer recorded, no
    descriptor changed, no message to the user, nothing logged); whenever the
    property test does not come out true, the state is as it was; and a
    rejected fetch is logged on the console and leaves the state, and with it
    every empty layer list, as it was. *)
Theorem fetch_without_layers_or_failed_changes_nothing
    (key url : string) (json : JS) (w : World) :
  (hasOwnProperty json "vector_layers" = Some false →
     fetchResolved key url (FetchJson json) w = w)
  ∧ (hasOwnProperty json "vector_layers" ≠ Some true →
     state (fetchResolved key url (FetchJson json) w) = state w
     ∧ pending (fetchResolved key url (FetchJson json) w) = pending w)
  ∧ (let w' := fetchResolved key url FetchRejected w in
     new_effects w w' = [EConsoleError "Failed to process sources for '%s'" url]
     ∧ state w' = state w
     ∧ pending w' = pending w
     ∧ ∀ d, sources (state w) !! key = Some d → desc_layers d = [] →
            desc_layers <$> sources (state w') !! key = Some []).
Proof.
  split_and!.
  - intros Hno. unfold fetchResolved. by rewrite Hno.
  - intros Hno. unfold fetchResolved.
    destruct (hasOwnProperty json "vector_layers") as [[|]|]; done.
  - simpl. unfold new_effects. simpl. rewrite drop_app_length.
    split_and!; [done..|].
    intros d Hd Hl. rewrite Hd. simpl. by rewrite Hl.
Qed.

(** ** The reconciler *)



(** ** The layer operators *)

Lemma indexOfLayer_Some (layers : list Layer) (layerId : string) (i : nat) :
  indexOfLayer layers layerId = Some i ↔
  ∃ layer, layers !! i = Some layer ∧ layer_id layer = layerId
           ∧ ∀ j other, layers !! j = Some other → j < i → layer_id other ≠ layerId.
Proof.
  unfold indexOfLayer. rewrite fmap_Some. split.
  - intros ([j layer] & Hfind & ->). simpl.
    apply list_find_Some in Hfind. by exists layer.
  - intros (layer & Hfind). exists (i, layer). split; [|done].
    by apply list_find_Some.
Qed.

Lemma indexOfLayer_present (layers : list Layer) (layerId : string) :
  layerId ∈ layer_id <$> layers → ∃ i, indexOfLayer layers layerId = Some i.
Proof.
  intros (layer & -> & Hin)%list_elem_of_fmap.
  destruct (list_find_elem_of (λ l, layer_id l = layer_id layer) layers layer)
    as [[i found] Hfind]; [done..|].
  exists i. unfold indexOfLayer. by rewrite Hfind.
Qed.

Lemma indexOfLayer_insert_same_id (layers : list Layer) (layerId : string)
    (i : nat) (changed : Layer) :
  indexOfLayer layers layerId = Some i →
  layer_id changed = layerId →
  indexOfLayer (<[i := changed]> layers) layerId = Some i.
Proof.
  intros (layer & Hi & Hid & Hfirst)%indexOfLayer_Some Hsame.
  apply indexOfLayer_Some. exists changed. split_and!; [|done|].
  - apply list_lookup_insert_eq. by eapply lookup_lt_Some.
  - intros j other Hj Hlt. rewrite list_lookup_insert_ne in Hj by lia. eauto.
Qed.


Lemma with_layers_same (d : Document) : with_layers d (doc_layers d) = d.
Proof. by destruct d. Qed.

Lemma with_layers_twice (d : Document) (ls1 ls2 : list Layer) :
  with_layers (with_layers d ls1) ls2 = with_layers d ls2.
Proof. done. Qed.

(** What a submitted layer list leaves committed when the handler starts with
    no update pending. *)
Lemma onLayersChange_state
    (validate : Document → list ValidationError)
    (normalizeSourceURL : string → option string)
    (changedLayers : list Layer) (w : World) :
  pending w = [] →
  let candidate := with_layers (mapStyle (state w)) changedLayers in
  let st' := state (flush (onLayersChange validate normalizeSourceURL changedLayers w)) in
  selectedLayerIndex st' = selectedLayerIndex (state w)
  ∧ mapStyle st' = (if bool_decide (validate candidate = [])
                    then candidate else mapStyle (state w)).
Proof.
  intros Hpend candidate st'. subst st'. unfold onLayersChange. cbv zeta.
  destruct (onStyleChanged_state validate normalizeSourceURL candidate true w)
    as (_ & _ & Hsel & Hdoc).
  fold candidate. rewrite Hsel, Hdoc.
  unfold flush. simpl. by rewrite Hpend.
Qed.




(** ** Visibility *)

Lemma visibility_of_default (layer : Layer) :
  default (∅ : Props) (layer_layout layer) !! "visibility" = visibility_of layer.
Proof. unfold visibility_of. by destruct (layer_layout layer). Qed.

Lemma toggledLayer_shown (layer : Layer) :
  toggledLayer layer
  = {| layer_id := layer_id layer;
       layer_layout :=
         Some (<["visibility" := JStr (if shown layer then "none" else "visible")]>
                 (default ∅ (layer_layout layer)));
       layer_other := layer_other layer |}.
Proof.
  unfold toggledLayer, shown. cbv zeta. rewrite visibility_of_default.
  destruct (decide (visibility_of layer = Some (JStr "none"))) as [E|E].
  - rewrite (bool_decide_eq_true_2 (visibility_of layer = _)) by done.
    by rewrite (bool_decide_eq_false_2 (visibility_of layer ≠ _)) by tauto.
  - rewrite (bool_decide_eq_false_2 (visibility_of layer = _)) by done.
    by rewrite (bool_decide_eq_true_2 (visibility_of layer ≠ _)) by done.
Qed.

Lemma toggledLayer_visibility (layer : Layer) :
  visibility_of (toggledLayer layer)
  = Some (JStr (if shown layer then "none" else "visible")).
Proof.
  rewrite toggledLayer_shown. unfold visibility_of. simpl.
  by rewrite lookup_insert_eq.
Qed.

Lemma toggledLayer_flips (layer : Layer) :
  shown (toggledLayer layer) = negb (shown layer).
Proof.
  unfold shown at 1. rewrite toggledLayer_visibility.
  by destruct (shown layer).
Qed.

Lemma toggledLayer_twice (layer : Layer) :
  toggledLayer (toggledLayer layer)
  = {| layer_id := layer_id layer;
       layer_layout :=
         Some (<["visibility" := JStr (if shown layer then "visible" else "none")]>
                 (default ∅ (layer_layout layer)));
       layer_other := layer_other layer |}.
Proof.
  rewrite (toggledLayer_shown (toggledLayer layer)), toggledLayer_flips.
  rewrite toggledLayer_shown. simpl. rewrite insert_insert_eq.
  by destruct (shown layer).
Qed.

Lemma toggledLayer_twice_explicit (layer : Layer) :
  visibility_of layer = Some (JStr "visible") ∨ visibility_of layer = Some (JStr "none") →
  toggledLayer (toggledLayer layer) = layer.
Proof.
  intros Hflag. rewrite toggledLayer_twice.
  destruct layer as [name layout other]. simpl. f_equal.
  destruct layout as [m|]; [|by destruct Hflag].
  unfold shown, visibility_of in *. simpl in *. f_equal.
  destruct Hflag as [E|E]; rewrite E.
  - rewrite bool_decide_eq_true_2 by discriminate. by apply insert_id.
  - rewrite bool_decide_eq_false_2 by tauto. by apply insert_id.
Qed.

(** C7, as the code has it: one toggle turns a shown layer (flag unset, or
    anything but ["none"]) into one whose flag is ["none"], and a layer whose
    flag is ["none"] into one whose flag is ["visible"], id and other
    properties untouched; two toggles give back the very same layer when its
    flag was set to ["visible"] or ["none"], and otherwise the layer with the
    flag now written out; and with such a flag, two runs of the handler on an
    accepting pipeline leave the list and the document as they were. *)
Theorem toggle_flips_and_twice_restores_set_flag (layer : Layer) :
  visibility_of (toggledLayer layer)
    = Some (JStr (if shown layer then "none" else "visible"))
  ∧ shown (toggledLayer layer) = negb (shown layer)
  ∧ layer_id (toggledLayer layer) = layer_id layer
  ∧ layer_other (toggledLayer layer) = layer_other layer
  ∧ toggledLayer (toggledLayer layer)
    = {| layer_id := layer_id layer;
         layer_layout :=
           Some (<["visibility" := JStr (if shown layer then "visible" else "none")]>
                   (default ∅ (layer_layout layer)));
         layer_other := layer_other layer |}
  ∧ (visibility_of layer = Some (JStr "visible")
     ∨ visibility_of layer = Some (JStr "none") →
     toggledLayer (toggledLayer layer) = layer
     ∧ ∀ (validate : Document → list ValidationError)
         (normalizeSourceURL : string → option string)
         (w : World) (X : string) (i : nat),
         pending w = [] →
         indexOfLayer (doc_layers (mapStyle (state w))) X = Some i →
         doc_layers (mapStyle (state w)) !! i = Some layer →
         ∃ once,
           toggledLayers (doc_layers (mapStyle (state w))) X = Some once
           ∧ once !! i = Some (toggledLayer layer)
           ∧ toggledLayers once X = Some (doc_layers (mapStyle (state w)))
           ∧ (validate (with_layers (mapStyle (state w)) once) = [] →
              validate (mapStyle (state w)) = [] →
              ∃ w1 w2,
                onLayerVisibilityToggle validate normalizeSourceURL X w = Some w1
                ∧ onLayerVisibilityToggle validate normalizeSourceURL X (flush w1)
                  = Some w2
                ∧ mapStyle (state (flush w2)) = mapStyle (state w))).
Proof.
  split_and!.
  - apply toggledLayer_visibility.
  - apply toggledLayer_flips.
  - done.
  - done.
  - apply toggledLayer_twice.
  - intros Hflag. split; [by apply toggledLayer_twice_explicit|].
    intros validate normalizeSourceURL w X i Hpend Hidx Hi.
    set (d := mapStyle (state w)) in *.
    set (layers := doc_layers d) in *.
    pose proof (lookup_lt_Some _ _ _ Hi) as Hlt.
    pose proof Hidx as (found & Hfound & Hid & _)%indexOfLayer_Some.
    assert (found = layer) as -> by congruence.
    assert (Honce : toggledLayers layers X = Some (<[i := toggledLayer layer]> layers)).
    { unfold toggledLayers. rewrite Hidx. simpl. by rewrite Hi. }
    assert (Hback : toggledLayers (<[i := toggledLayer layer]> layers) X = Some layers).
    { unfold toggledLayers.
      rewrite (indexOfLayer_insert_same_id layers X i (toggledLayer layer)) by done.
      simpl. rewrite list_lookup_insert_eq by done. simpl.
      rewrite list_insert_insert_eq, toggledLayer_twice_explicit by done.
      by rewrite list_insert_id. }
    exists (<[i := toggledLayer layer]> layers).
    split_and!; [done|by apply list_lookup_insert_eq|done|].
    intros Hok1 Hok2.
    set (w1 := onLayersChange validate normalizeSourceURL
                 (<[i := toggledLayer layer]> layers) w).
    assert (Hdoc1 : mapStyle (state (flush w1))
                    = with_layers d (<[i := toggledLayer layer]> layers)).
    { unfold w1.
      destruct (onLayersChange_state validate normalizeSourceURL
                  (<[i := toggledLayer layer]> layers) w Hpend) as [_ ->].
      by rewrite bool_decide_eq_true_2. }
    exists w1, (onLayersChange validate normalizeSourceURL layers (flush w1)).
    split_and!.
    + unfold onLayerVisibilityToggle. fold d layers. by rewrite Honce.
    + unfold onLayerVisibilityToggle. rewrite Hdoc1. simpl. by rewrite Hback.
    + destruct (onLayersChange_state validate normalizeSourceURL layers (flush w1))
        as [_ ->]; [done|].
      rewrite Hdoc1, with_layers_twice. unfold layers.
      rewrite with_layers_same. by rewrite bool_decide_eq_true_2.
Qed.

Lemma toggle_flips_and_twice_restores_set_flag_witness :
  let hidden := {| layer_id := "water";
                   layer_layout := Some {["visibility" := JStr "none"]};
                   layer_other := ∅ |} in
  visibility_of hidden = Some (JStr "none")
  ∧ visibility_of (toggledLayer hidden) = Some (JStr "visible")
  ∧ toggledLayer (toggledLayer hidden) = hidden.
Proof.
  intros hidden.
  assert (Hflag : visibility_of hidden = Some (JStr "none")) by reflexivity.
  destruct (toggle_flips_and_twice_restores_set_flag hidden)
    as (Hone & _ & _ & _ & _ & Htwice).
  split_and!; [exact Hflag|exact Hone|exact (proj1 (Htwice (or_intror Hflag)))].
Defined.

Lemma toggle_twice_writes_out_unset_flag :
  let bare := plain_layer "water" in
  let w := sample_world (sample_document [bare] []) 0 false in
  layer_layout bare = None
  ∧ layer_layout (toggledLayer (toggledLayer bare))
    = Some {["visibility" := JStr "visible"]}
  ∧ (toggledLayers [bare] "water" ≫= λ once, toggledLayers once "water")
    = Some [{| layer_id := "water";
               layer_layout := Some {["visibility" := JStr "visible"]};
               layer_other := ∅ |}]
  ∧ (λ w2, layer_layout <$> doc_layers (mapStyle (state (flush w2))))
      <$> (onLayerVisibilityToggle accept_all keep_url "water" w
           ≫= λ w1, onLayerVisibilityToggle accept_all keep_url "water" (flush w1))
    = Some [Some {["visibility" := JStr "visible"]}].
Proof. vm_compute. done. Qed.

(** ** Moving a layer *)

Lemma clamp_in_range (x last : Z) :
  (0 ≤ last)%Z → (0 ≤ clamp x 0 last ≤ last)%Z.
Proof. intros Hlast. unfold clamp. repeat case_bool_decide; lia. Qed.

Lemma clamp_clamp (x last : Z) :
  (-1 ≤ last)%Z → clamp (clamp x 0 last) 0 last = clamp x 0 last.
Proof. intros Hlast. unfold clamp. repeat case_bool_decide; lia. Qed.

Lemma clamp_short_list (x y last : Z) :
  (last ≤ 0)%Z → clamp x 0 last = clamp y 0 last.
Proof. intros Hlast. unfold clamp. repeat case_bool_decide; lia. Qed.

Lemma length_splice_delete {A} (i : nat) (l : list A) :
  i < length l → length (splice i 1 [] l) = length l - 1.
Proof.
  intros Hi. unfold splice. simpl.
  rewrite length_app, length_take, length_drop. lia.
Qed.

Lemma length_splice_insert {A} (i : nat) (x : A) (l : list A) :
  length (splice i 0 [x] l) = S (length l).
Proof.
  unfold splice. rewrite Nat.add_0_r, length_app. simpl.
  rewrite length_take, length_drop. lia.
Qed.

Lemma length_arrayMove {A} (l : list A) (from to : nat) :
  length (arrayMove l from to) = length l.
Proof.
  unfold arrayMove. destruct (l !! from) as [x|] eqn:Hx; [|done].
  apply lookup_lt_Some in Hx.
  rewrite length_splice_insert, length_splice_delete by done. lia.
Qed.

(** Once clamped, two different indices both fall inside the list: the move
    never reads past its end. *)
Lemma arrayMove_in_range {A} (l : list A) (oldIndex newIndex : Z) :
  let last := (Z.of_nat (length l) - 1)%Z in
  clamp oldIndex 0 last ≠ clamp newIndex 0 last →
  is_Some (l !! Z.to_nat (clamp oldIndex 0 last))
  ∧ is_Some (l !! Z.to_nat (clamp newIndex 0 last)).
Proof.
  intros last Hne.
  assert (0 < last)%Z as Hlast.
  { destruct (decide (last ≤ 0)%Z) as [Hle|]; [|lia].
    destruct Hne. by apply clamp_short_list. }
  pose proof (clamp_in_range oldIndex last ltac:(lia)).
  pose proof (clamp_in_range newIndex last ltac:(lia)).
  split; apply lookup_lt_is_Some_2; lia.
Qed.

Section Move.

Context (validate : Document → list ValidationError).
Context (normalizeSourceURL : string → option string).

Lemma setState_selection index w :
  pending w = [] →
  mapStyle (state (setState (selection index) w)) = mapStyle (state w)
  ∧ selectedLayerIndex (state (flush (setState (selection index) w))) = index
  ∧ mapStyle (state (flush (setState (selection index) w))) = mapStyle (state w).
Proof.
  intros Hpend. rewrite flush_setState.
  unfold setState, flush. rewrite Hpend. by destruct (batching w).
Qed.

Lemma onMoveLayer_same oldIndex newIndex w :
  let last := (Z.of_nat (length (doc_layers (mapStyle (state w)))) - 1)%Z in
  clamp oldIndex 0 last = clamp newIndex 0 last →
  onMoveLayer validate normalizeSourceURL oldIndex newIndex w = w.
Proof.
  intros last Heq. unfold onMoveLayer. cbv zeta. fold last.
  by rewrite bool_decide_eq_true_2.
Qed.

Lemma onMoveLayer_state oldIndex newIndex w :
  pending w = [] →
  let layers := doc_layers (mapStyle (state w)) in
  let last := (Z.of_nat (length layers) - 1)%Z in
  let o := clamp oldIndex 0 last in
  let n := clamp newIndex 0 last in
  let candidate :=
    with_layers (mapStyle (state w)) (arrayMove layers (Z.to_nat o) (Z.to_nat n)) in
  let st' := state (flush (onMoveLayer validate normalizeSourceURL oldIndex newIndex w)) in
  o ≠ n →
  selectedLayerIndex st'
    = (if bool_decide (o = selectedLayerIndex (state w))
       then n else selectedLayerIndex (state w))
  ∧ mapStyle st'
    = (if bool_decide (validate candidate = []) then candidate else mapStyle (state w)).
Proof.
  intros Hpend layers last o n candidate st' Hne. subst st'.
  unfold onMoveLayer. cbv zeta. fold layers last o n.
  rewrite bool_decide_eq_false_2 by done.
  case_bool_decide as Hsel.
  - destruct (setState_selection n w Hpend) as (Hdoc & Hidx & Hdoc').
    unfold onLayersChange. cbv zeta. fold (selection n). rewrite Hdoc.
    fold candidate.
    destruct (onStyleChanged_state validate normalizeSourceURL candidate true
                (setState (selection n) w)) as (_ & _ & -> & ->).
    by rewrite Hidx, Hdoc'.
  - destruct (onLayersChange_state validate normalizeSourceURL
                (arrayMove layers (Z.to_nat o) (Z.to_nat n)) w Hpend) as [-> ->].
    done.
Qed.

End Move.

(** C4: [onMoveLayer] works on the two indices clamped to the ends of the
    list (both inside the list when it is not empty); with equal clamped
    indices it hands the world back untouched; otherwise the selection
    becomes the clamped new index when the clamped old index is the selected
    one and stays as it is when not, and an accepted move leaves the list
    with the layer cut out at the old index and put back at the new one.  On
    [a; b; c] with the selection at 1, moving 0 to 2 gives [b; c; a] with the
    selection still 1, which is now [c]. *)
Theorem move_clamps_and_follows_selection
    (validate : Document → list ValidationError)
    (normalizeSourceURL : string → option string)
    (w : World) (oldIndex newIndex : Z) :
  pending w = [] →
  let layers := doc_layers (mapStyle (state w)) in
  let last := (Z.of_nat (length layers) - 1)%Z in
  let o := clamp oldIndex 0 last in
  let n := clamp newIndex 0 last in
  let w' := onMoveLayer validate normalizeSourceURL oldIndex newIndex w in
  let moved := arrayMove layers (Z.to_nat o) (Z.to_nat n) in
  (layers ≠ [] → (0 ≤ o ≤ last)%Z ∧ (0 ≤ n ≤ last)%Z)
  ∧ w' = onMoveLayer validate normalizeSourceURL o n w
  ∧ (o = n → w' = w)
  ∧ (o ≠ n →
       selectedLayerIndex (state (flush w'))
         = (if bool_decide (o = selectedLayerIndex (state w))
            then n else selectedLayerIndex (state w))
       ∧ (validate (with_layers (mapStyle (state w)) moved) = [] →
          doc_layers (mapStyle (state (flush w'))) = moved))
  ∧ (∀ a b c,
       layers = [a; b; c] → selectedLayerIndex (state w) = 1%Z →
       oldIndex = 0%Z → newIndex = 2%Z →
       validate (with_layers (mapStyle (state w)) [b; c; a]) = [] →
       doc_layers (mapStyle (state (flush w'))) = [b; c; a]
       ∧ selectedLayerIndex (state (flush w')) = 1%Z
       ∧ doc_layers (mapStyle (state (flush w'))) !! 1 = Some c).
Proof.
  intros Hpend layers last o n w' moved.
  assert (Hstate := onMoveLayer_state validate normalizeSourceURL oldIndex newIndex w Hpend).
  cbv zeta in Hstate. fold layers last o n moved w' in Hstate.
  split_and!.
  - intros Hne.
    assert (0 ≤ last)%Z by (subst last; destruct layers; [done|simpl; lia]).
    split; by apply clamp_in_range.
  - subst w' o n. unfold onMoveLayer. cbv zeta. fold layers last.
    assert (-1 ≤ last)%Z by (subst last; lia).
    by rewrite !clamp_clamp.
  - intros Heq. by apply onMoveLayer_same.
  - intros Hne. destruct (Hstate Hne) as [Hsel Hdoc]. split; [done|].
    intros Hok. rewrite Hdoc. by rewrite bool_decide_eq_true_2.
  - intros a b c Hl Hsel -> -> Hok.
    assert (Ho : o = 0%Z) by (subst o last; rewrite Hl; reflexivity).
    assert (Hn : n = 2%Z) by (subst n last; rewrite Hl; reflexivity).
    assert (Hmoved : moved = [b; c; a]) by (subst moved; rewrite Ho, Hn, Hl; reflexivity).
    destruct Hstate as [Hsel' Hdoc]; [rewrite Ho, Hn; lia|].
    rewrite Hmoved in Hdoc. rewrite bool_decide_eq_true_2 in Hdoc by done.
    rewrite Hdoc, Hsel', Hsel, Ho. simpl. done.
Qed.

Lemma move_clamps_and_follows_selection_witness :
  let a := plain_layer "A" in
  let b := plain_layer "B" in
  let c := plain_layer "C" in
  let w := sample_world (sample_document [a; b; c] []) 1 true in
  let w' := onMoveLayer accept_all keep_url 0 2 w in
  pending w = []
  ∧ doc_layers (mapStyle (state (flush w'))) = [b; c; a]
  ∧ selectedLayerIndex (state (flush w')) = 1%Z
  ∧ doc_layers (mapStyle (state (flush w'))) !! 1 = Some c.
Proof.
  intros a b c w w'.
  assert (Hpend : pending w = []) by reflexivity.
  split; [exact Hpend|].
  destruct (move_clamps_and_follows_selection accept_all keep_url w 0 2 Hpend)
    as (_ & _ & _ & _ & Hscenario).
  exact (Hscenario a b c eq_refl eq_refl eq_refl eq_refl eq_refl).
Defined.

(** ** The selection bound *)

Section Selection.

Context (validate : Document → list ValidationError).
Context (normalizeSourceURL : string → option string).


Lemma indexOfLayer_non_empty layers layerId i :
  indexOfLayer layers layerId = Some i → layers ≠ [] ∧ i < length layers.
Proof.
  intros (layer & Hi & _)%indexOfLayer_Some.
  apply lookup_lt_Some in Hi. split; [|done].
  intros ->. simpl in Hi. lia.
Qed.


End Selection.




(** * Further properties of the component *)

(** ** An accepted submit *)

Lemma font_requests_app es fs :
  font_requests (es ++ fs) = font_requests es ++ font_requests fs.
Proof. apply omap_app. Qed.

Lemma icon_requests_app es fs :
  icon_requests (es ++ fs) = icon_requests es ++ icon_requests fs.
Proof. apply omap_app. Qed.

Lemma fetch_or_warning_requests es :
  Forall fetch_or_warning es → font_requests es = [] ∧ icon_requests es = [].
Proof.
  induction 1 as [|e es He _ [IH1 IH2]]; [done|].
  destruct e; simpl in *; done.
Qed.

Lemma fetchSources_effects normalizeSourceURL w :
  effects (fetchSources normalizeSourceURL w)
  = effects w ++ reconcile_calls normalizeSourceURL (state w).
Proof.
  unfold fetchSources, reconcile_calls. cbv zeta.
  case_bool_decide.
  - by rewrite emit_all_effects, app_nil_r.
  - rewrite setState_effects. simpl. by rewrite emit_all_effects, app_assoc.
Qed.

Lemma reconcile_calls_requests normalizeSourceURL st :
  font_requests (reconcile_calls normalizeSourceURL st) = []
  ∧ icon_requests (reconcile_calls normalizeSourceURL st) = [].
Proof.
  unfold reconcile_calls, fetchSources_loop. cbv zeta.
  destruct (fetchSources_fold_calls normalizeSourceURL (sources st)
              (doc_sources (mapStyle st)) (sources st, [])) as (es & -> & F & _).
  apply fetch_or_warning_requests in F as [F1 F2].
  rewrite font_requests_app, icon_requests_app. simpl. rewrite F1, F2.
  by case_bool_decide.
Qed.

Lemma onStyleChanged_requests
    (validate : Document → list ValidationError)
    (normalizeSourceURL : string → option string)
    (newStyle : Document) (save : bool) (w : World) :
  let w' := onStyleChanged validate normalizeSourceURL newStyle save w in
  font_requests (new_effects w w')
    = (if bool_decide (validate newStyle = [])
       then if bool_decide (doc_glyphs newStyle = doc_glyphs (mapStyle (state w)))
            then [] else [doc_glyphs newStyle]
       else [])
  ∧ icon_requests (new_effects w w')
    = (if bool_decide (validate newStyle = [])
       then if bool_decide (doc_sprite newStyle = doc_sprite (mapStyle (state w)))
            then [] else [doc_sprite newStyle]
       else []).
Proof.
  intros w'. subst w'. case_bool_decide as Hok.
  - rewrite onStyleChanged_accepted by done. unfold new_effects.
    rewrite fetchSources_effects, setState_effects. simpl.
    rewrite <- app_assoc, drop_app_length. simpl.
    rewrite font_requests_app, icon_requests_app.
    match goal with |- context [reconcile_calls _ ?st] =>
      destruct (reconcile_calls_requests normalizeSourceURL st) as [-> ->] end.
    rewrite !app_nil_r. unfold submit_calls.
    destruct (decide (doc_glyphs newStyle = doc_glyphs (mapStyle (state w)))) as [Eg|Eg];
      [rewrite (bool_decide_eq_false_2 (doc_glyphs newStyle ≠ _)) by tauto;
       rewrite (bool_decide_eq_true_2 (doc_glyphs newStyle = _)) by done
      |rewrite (bool_decide_eq_true_2 (doc_glyphs newStyle ≠ _)) by done;
       rewrite (bool_decide_eq_false_2 (doc_glyphs newStyle = _)) by done];
      (destruct (decide (doc_sprite newStyle = doc_sprite (mapStyle (state w)))) as [Es|Es];
       [rewrite (bool_decide_eq_false_2 (doc_sprite newStyle ≠ _)) by tauto;
        rewrite (bool_decide_eq_true_2 (doc_sprite newStyle = _)) by done
       |rewrite (bool_decide_eq_true_2 (doc_sprite newStyle ≠ _)) by done;
        rewrite (bool_decide_eq_false_2 (doc_sprite newStyle = _)) by done]);
      destruct save; done.
  - rewrite onStyleChanged_rejected by done. unfold new_effects.
    rewrite fetchSources_effects, setState_effects. simpl.
    rewrite <- app_assoc, drop_app_length. simpl.
    apply reconcile_calls_requests.
Qed.

(** X1: a candidate the validator accepts becomes the committed document, the
    error list is emptied, the candidate is added to the revision store, it
    is saved exactly when [save] is set, and a glyph (sprite) download is
    asked for exactly when the candidate's glyphs (sprite) differ from those
    of the document in the state. *)
Theorem accepted_submit_commits
    (validate : Document → list ValidationError)
    (normalizeSourceURL : string → option string)
    (newStyle : Document) (save : bool) (w : World) :
  validate newStyle = [] →
  let w' := onStyleChanged validate normalizeSourceURL newStyle save w in
  mapStyle (state (flush w')) = newStyle
  ∧ errors (state (flush w')) = []
  ∧ revisionStore w' = RevisionStore.addRevision newStyle (revisionStore w)
  ∧ saves (new_effects w w') = (if save then [newStyle] else [])
  ∧ font_requests (new_effects w w')
    = (if bool_decide (doc_glyphs newStyle = doc_glyphs (mapStyle (state w)))
       then [] else [doc_glyphs newStyle])
  ∧ icon_requests (new_effects w w')
    = (if bool_decide (doc_sprite newStyle = doc_sprite (mapStyle (state w)))
       then [] else [doc_sprite newStyle]).
Proof.
  intros Hok w'. subst w'.
  destruct (onStyleChanged_state validate normalizeSourceURL newStyle save w)
    as (He & _ & _ & Hm).
  destruct (onStyleChanged_requests validate normalizeSourceURL newStyle save w)
    as [Hf Hi].
  rewrite Hok in He. rewrite bool_decide_eq_true_2 in Hm, Hf, Hi by done.
  split_and!; [done|done| | |done|done].
  - by rewrite onStyleChanged_revisionStore, bool_decide_eq_true_2.
  - destruct (onStyleChanged_effects validate normalizeSourceURL newStyle save w)
      as (es & Hes & _ & Hs).
    unfold new_effects. rewrite Hes, drop_app_length, Hs.
    by rewrite bool_decide_eq_true_2.
Qed.

Lemma accepted_submit_commits_witness :
  let current := sample_document [plain_layer "water"] [] in
  let candidate :=
    {| doc_layers := [plain_layer "water"]; doc_sources := [];
       doc_glyphs := Some "https://fonts/{fontstack}/{range}.pbf";
       doc_sprite := None; doc_other := ∅ |} in
  let w := sample_world current 0 true in
  let w' := onStyleChanged accept_all keep_url candidate false w in
  accept_all candidate = []
  ∧ mapStyle (state (flush w')) = candidate
  ∧ saves (new_effects w w') = []
  ∧ font_requests (new_effects w w') = [Some "https://fonts/{fontstack}/{range}.pbf"]
  ∧ icon_requests (new_effects w w') = [].
Proof.
  intros current candidate w w'.
  assert (Hok : accept_all candidate = []) by reflexivity.
  destruct (accepted_submit_commits accept_all keep_url candidate false w Hok)
    as (Hdoc & _ & _ & Hsave & Hfont & Hicon).
  split_and!; [exact Hok|exact Hdoc|exact Hsave|exact Hfont|exact Hicon].
Defined.

(** X2: a changed layer list is submitted with saving on, and never asks for
    a glyph or sprite download; once accepted, the document differs from the
    one before in its layers alone. *)
Theorem layer_edits_save_and_download_nothing
    (validate : Document → list ValidationError)
    (normalizeSourceURL : string → option string)
    (changedLayers : list Layer) (w : World) :
  let candidate := with_layers (mapStyle (state w)) changedLayers in
  let w' := onLayersChange validate normalizeSourceURL changedLayers w in
  font_requests (new_effects w w') = []
  ∧ icon_requests (new_effects w w') = []
  ∧ validations (new_effects w w') = [candidate]
  ∧ saves (new_effects w w')
    = (if bool_decide (validate candidate = []) then [candidate] else [])
  ∧ doc_sources candidate = doc_sources (mapStyle (state w))
  ∧ doc_glyphs candidate = doc_glyphs (mapStyle (state w))
  ∧ doc_sprite candidate = doc_sprite (mapStyle (state w))
  ∧ doc_other candidate = doc_other (mapStyle (state w)).
Proof.
  intros candidate w'. subst w'. unfold onLayersChange. cbv zeta. fold candidate.
  destruct (onStyleChanged_effects validate normalizeSourceURL candidate true w)
    as (es & Hes & Hv & Hs).
  destruct (onStyleChanged_requests validate normalizeSourceURL candidate true w)
    as [Hf Hi].
  unfold new_effects in Hf, Hi. rewrite Hes, drop_app_length in Hf, Hi.
  assert (Hreq : font_requests es = [] ∧ icon_requests es = []).
  { rewrite Hf, Hi. unfold candidate. simpl.
    rewrite !(bool_decide_eq_true_2 (_ = _ :> option string)) by done.
    split; by destruct (bool_decide _). }
  clear Hf Hi.
  destruct Hreq as [Hf Hi].
  unfold new_effects. rewrite Hes, drop_app_length, Hv, Hs, Hf, Hi.
  rewrite andb_true_r. done.
Qed.

(** ** More on the reconciler *)

Section ReconcilerMore.

Context (normalizeSourceURL : string → option string).









Lemma fetchSources_batched w :
  batching w = true →
  state (fetchSources normalizeSourceURL w) = state w
  ∧ batching (fetchSources normalizeSourceURL w) = true.
Proof.
  intros Hb. unfold fetchSources. cbv zeta.
  match goal with |- context [foldl (λ w e, emit e w) w ?es] =>
    destruct (emit_all_frame es w) as (Hs & _ & Hb' & _) end.
  case_bool_decide; [by rewrite Hs, Hb', Hb|].
  unfold setState. simpl. rewrite Hb', Hb. simpl. by rewrite Hs.
Qed.




End ReconcilerMore.









(** X7: inside a batch the state a second [fetchSources] reads is still the
    one the first read, so it makes the same calls over again: every fetch
    of the first run is issued a second time. *)
Theorem fetchSources_twice_batched
    (normalizeSourceURL : string → option string) (w : World) :
  batching w = true →
  let once := fetchSources normalizeSourceURL w in
  let twice := fetchSources normalizeSourceURL once in
  new_effects w twice = new_effects w once ++ new_effects w once
  ∧ fetches (new_effects w twice)
    = fetches (new_effects w once) ++ fetches (new_effects w once).
Proof.
  intros Hb once twice.
  destruct (fetchSources_batched normalizeSourceURL w Hb) as [Hs _].
  assert (Hnew : new_effects w twice = new_effects w once ++ new_effects w once).
  { subst once twice. unfold new_effects.
    rewrite (fetchSources_effects normalizeSourceURL (fetchSources _ w)), Hs.
    rewrite fetchSources_effects, <- app_assoc, !drop_app_length. done. }
  split; [done|]. by rewrite Hnew, fetches_app.
Qed.

Lemma fetchSources_twice_batched_witness :
  let d := sample_document []
             [("s1", {| src_type := "vector"; src_url := Some "https://x/tiles.json" |})] in
  let w := sample_world d 0 true in
  fetches (new_effects w (fetchSources keep_url (fetchSources keep_url w)))
  = [("s1", "https://x/tiles.json"); ("s1", "https://x/tiles.json")].
Proof.
  intros d w.
  rewrite (proj2 (fetchSources_twice_batched keep_url w eq_refl)).
  reflexivity.
Defined.

(** ** More on the fetch callbacks *)

Lemma getProp_is_Some (v : JS) (key : string) :
  is_Some (getProp v key) ↔ v ≠ JNull ∧ v ≠ JUndefined.
Proof.
  destruct v; simpl; split; try (intros [? ?]; done); try (by eexists);
    intros [? ?]; done.
Qed.

Lemma push_layer_ids_all (key : string) (items : list JS)
    (srcs : gmap string Descriptor) (d : Descriptor) :
  srcs !! key = Some d →
  Forall (λ layer, layer ≠ JNull ∧ layer ≠ JUndefined) items →
  push_layer_ids key items srcs
  = (<[key := {| desc_type := desc_type d;
                 desc_layers := desc_layers d ++ (layer_name <$> items) |}]> srcs,
     true).
Proof.
  intros Hd Hok. revert srcs d Hd.
  induction Hok as [|layer items Hlayer _ IH]; intros srcs d Hd.
  - simpl. rewrite app_nil_r. f_equal. symmetry. apply insert_id.
    by destruct d.
  - destruct (proj2 (getProp_is_Some layer "id") Hlayer) as [v Hv].
    cbn [push_layer_ids]. rewrite Hd, Hv.
    rewrite (IH _ _ (lookup_insert_eq _ _ _)). simpl.
    rewrite insert_insert_eq, <- app_assoc. unfold layer_name at 2. by rewrite Hv.
Qed.

Lemma push_layer_ids_stops (key : string) (good : list JS) (bad : JS) (rest : list JS)
    (srcs : gmap string Descriptor) (d : Descriptor) :
  srcs !! key = Some d →
  Forall (λ layer, layer ≠ JNull ∧ layer ≠ JUndefined) good →
  getProp bad "id" = None →
  push_layer_ids key (good ++ bad :: rest) srcs
  = (<[key := {| desc_type := desc_type d;
                 desc_layers := desc_layers d ++ (layer_name <$> good) |}]> srcs,
     false).
Proof.
  intros Hd Hok Hbad. revert srcs d Hd.
  induction Hok as [|layer good Hlayer _ IH]; intros srcs d Hd.
  - simpl. rewrite Hd, Hbad, app_nil_r. f_equal. symmetry. apply insert_id.
    by destruct d.
  - destruct (proj2 (getProp_is_Some layer "id") Hlayer) as [v Hv].
    cbn [app push_layer_ids]. rewrite Hd, Hv.
    rewrite (IH _ _ (lookup_insert_eq _ _ _)). simpl.
    rewrite insert_insert_eq, <- app_assoc. unfold layer_name at 2. by rewrite Hv.
Qed.

Lemma push_layer_ids_frame (key : string) (items : list JS)
    (srcs : gmap string Descriptor) :
  (∀ k, k ≠ key → (push_layer_ids key items srcs).1 !! k = srcs !! k)
  ∧ match srcs !! key with
    | None => (push_layer_ids key items srcs).1 !! key = None
    | Some d => ∃ more, (push_layer_ids key items srcs).1 !! key
                        = Some {| desc_type := desc_type d;
                                  desc_layers := desc_layers d ++ more |}
    end.
Proof.
  revert srcs. induction items as [|layer items IH]; intros srcs.
  - simpl. split; [done|]. destruct (srcs !! key) as [d|] eqn:Hd; [|done].
    exists []. rewrite app_nil_r. by destruct d.
  - cbn [push_layer_ids]. destruct (srcs !! key) as [d|] eqn:Hd.
    + destruct (getProp layer "id") as [v|]; simpl.
      * destruct (IH (<[key := {| desc_type := desc_type d;
                                  desc_layers := desc_layers d ++ [v] |}]> srcs))
          as [Hother Hkey].
        rewrite lookup_insert_eq in Hkey. destruct Hkey as [more Hmore]. split.
        -- intros k Hk. rewrite Hother by done. by rewrite lookup_insert_ne.
        -- exists (v :: more). rewrite Hmore. simpl. by rewrite <- app_assoc.
      * split; [done|]. exists []. rewrite app_nil_r, Hd. by destruct d.
    + simpl. by rewrite Hd.
Qed.

Lemma fetchResolved_success (key url : string) (json : JS) (items : list JS)
    (d : Descriptor) (w : World) :
  hasOwnProperty json "vector_layers" = Some true →
  getProp json "vector_layers" = Some (JArr items) →
  Forall (λ layer, layer ≠ JNull ∧ layer ≠ JUndefined) items →
  sources (state w) !! key = Some d →
  let w' := fetchResolved key url (FetchJson json) w in
  sources (state (flush w'))
  = <[key := {| desc_type := desc_type d;
                desc_layers := desc_layers d ++ (layer_name <$> items) |}]>
      (sources (state w))
  ∧ new_effects w w' = [EConsoleDebug ("Updating source: " +:+ key)].
Proof.
  intros Hhas Hget Hok Hd w'. subst w'. unfold fetchResolved.
  rewrite Hhas, Hget. cbn [mbind option_bind iterate].
  rewrite (push_layer_ids_all key items _ d Hd Hok). cbn [fst snd].
  rewrite flush_setState. split; [done|].
  unfold new_effects. rewrite setState_effects. simpl.
  by rewrite drop_app_length.
Qed.

(** X8: when the body's [vector_layers] is an array without [null] entries
    and the source has a descriptor, the [id] of every entry, in order, is
    appended to the descriptor's layers, whatever they held; nothing is
    replaced or de-duplicated, so the same body resolving a second time
    leaves every name twice. *)
Theorem fetchResolved_appends_layer_names
    (key url : string) (json : JS) (items : list JS) (d : Descriptor) (w : World) :
  hasOwnProperty json "vector_layers" = Some true →
  getProp json "vector_layers" = Some (JArr items) →
  Forall (λ layer, layer ≠ JNull ∧ layer ≠ JUndefined) items →
  sources (state w) !! key = Some d →
  let once := flush (fetchResolved key url (FetchJson json) w) in
  let twice := flush (fetchResolved key url (FetchJson json) once) in
  sources (state once)
  = <[key := {| desc_type := desc_type d;
                desc_layers := desc_layers d ++ (layer_name <$> items) |}]>
      (sources (state w))
  ∧ new_effects w once = [EConsoleDebug ("Updating source: " +:+ key)]
  ∧ sources (state twice)
    = <[key := {| desc_type := desc_type d;
                  desc_layers := desc_layers d ++ (layer_name <$> items)
                                 ++ (layer_name <$> items) |}]>
        (sources (state w)).
Proof.
  intros Hhas Hget Hok Hd once twice.
  destruct (fetchResolved_success key url json items d w Hhas Hget Hok Hd)
    as [Hs He].
  fold once in Hs. split_and!; [done|done|].
  subst twice.
  destruct (fetchResolved_success key url json items
              {| desc_type := desc_type d;
                 desc_layers := desc_layers d ++ (layer_name <$> items) |}
              once Hhas Hget Hok) as [Hs2 _].
  { rewrite Hs. apply lookup_insert_eq. }
  rewrite Hs2, Hs. simpl. by rewrite insert_insert_eq, <- app_assoc.
Qed.

Lemma fetchResolved_appends_layer_names_witness :
  let body := JObj [("vector_layers",
                     JArr [JObj [("id", JStr "roads")]; JObj [("id", JStr "water")]])] in
  let w := {| state := {| errors := []; infos := []; mapStyle := sample_document [] [];
                          selectedLayerIndex := 0;
                          sources := {["s1" := {| desc_type := "vector";
                                                  desc_layers := [JStr "land"] |}]} |};
              batching := false; pending := [];
              revisionStore := RevisionStore.empty; effects := [] |} in
  let once := flush (fetchResolved "s1" "https://x/tiles.json" (FetchJson body) w) in
  sources (state once)
  = {["s1" := {| desc_type := "vector";
                 desc_layers := [JStr "land"; JStr "roads"; JStr "water"] |}]}.
Proof.
  intros body w once.
  assert (Hok : Forall (λ layer, layer ≠ JNull ∧ layer ≠ JUndefined)
                  [JObj [("id", JStr "roads")]; JObj [("id", JStr "water")]]).
  { repeat constructor; discriminate. }
  destruct (fetchResolved_appends_layer_names "s1" "https://x/tiles.json" body _
              {| desc_type := "vector"; desc_layers := [JStr "land"] |} w
              eq_refl eq_refl Hok eq_refl) as (Hs & _ & _).
  fold once in Hs. rewrite Hs. reflexivity.
Defined.

(** X9: a [null] entry in [vector_layers] stops the loop with a TypeError
    that the [catch] logs; the names pushed before it stay in the state's
    descriptor, the entries after it are never read, and no [setState]
    announces the change. *)
Theorem fetchResolved_null_entry_keeps_earlier_names
    (key url : string) (json : JS) (good rest : list JS) (d : Descriptor) (w : World) :
  hasOwnProperty json "vector_layers" = Some true →
  getProp json "vector_layers" = Some (JArr (good ++ JNull :: rest)) →
  Forall (λ layer, layer ≠ JNull ∧ layer ≠ JUndefined) good →
  sources (state w) !! key = Some d →
  let w' := fetchResolved key url (FetchJson json) w in
  sources (state w')
  = <[key := {| desc_type := desc_type d;
                desc_layers := desc_layers d ++ (layer_name <$> good) |}]>
      (sources (state w))
  ∧ pending w' = pending w
  ∧ new_effects w w' = [EConsoleError "Failed to process sources for '%s'" url].
Proof.
  intros Hhas Hget Hok Hd w'. subst w'. unfold fetchResolved.
  rewrite Hhas, Hget. cbn [mbind option_bind iterate].
  rewrite (push_layer_ids_stops key good JNull rest _ d Hd Hok eq_refl).
  cbn [fst snd]. split_and!; [done|done|].
  unfold new_effects. simpl. by rewrite drop_app_length.
Qed.

Lemma fetchResolved_null_entry_keeps_earlier_names_witness :
  let body := JObj [("vector_layers",
                     JArr [JObj [("id", JStr "roads")]; JNull;
                           JObj [("id", JStr "water")]])] in
  let w := {| state := {| errors := []; infos := []; mapStyle := sample_document [] [];
                          selectedLayerIndex := 0;
                          sources := {["s1" := {| desc_type := "vector";
                                                  desc_layers := [] |}]} |};
              batching := false; pending := [];
              revisionStore := RevisionStore.empty; effects := [] |} in
  let w' := fetchResolved "s1" "https://x/tiles.json" (FetchJson body) w in
  sources (state w')
  = {["s1" := {| desc_type := "vector"; desc_layers := [JStr "roads"] |}]}
  ∧ effects w'
    = [EConsoleError "Failed to process sources for '%s'" "https://x/tiles.json"].
Proof.
  intros body w w'.
  assert (Hok : Forall (λ layer, layer ≠ JNull ∧ layer ≠ JUndefined)
                  [JObj [("id", JStr "roads")]]).
  { repeat constructor; discriminate. }
  destruct (fetchResolved_null_entry_keeps_earlier_names "s1" "https://x/tiles.json"
              body [JObj [("id", JStr "roads")]] [JObj [("id", JStr "water")]]
              {| desc_type := "vector"; desc_layers := [] |} w
              eq_refl eq_refl Hok eq_refl) as (Hs & _ & He).
  fold w' in Hs, He. split; [rewrite Hs; reflexivity|exact He].
Defined.

Lemma fetchResolved_state (key url : string) (r : FetchResult) (w : World) :
  pending w = [] →
  ∃ srcs,
    state (flush (fetchResolved key url r w))
    = {| errors := errors (state w); infos := infos (state w);
         mapStyle := mapStyle (state w);
         selectedLayerIndex := selectedLayerIndex (state w);
         sources := srcs |}
    ∧ (srcs = sources (state w)
       ∨ ∃ items, srcs = (push_layer_ids key items (sources (state w))).1).
Proof.
  intros Hpend.
  assert (Hsame : ∀ e, ∃ srcs,
    state (flush (emit e w))
    = {| errors := errors (state w); infos := infos (state w);
         mapStyle := mapStyle (state w);
         selectedLayerIndex := selectedLayerIndex (state w);
         sources := srcs |}
    ∧ (srcs = sources (state w)
       ∨ ∃ items, srcs = (push_layer_ids key items (sources (state w))).1)).
  { intros e. exists (sources (state w)). split; [|by left].
    unfold flush; simpl. rewrite Hpend. by destruct (state w). }
  unfold fetchResolved.
  destruct r as [|json]; [apply Hsame|].
  destruct (hasOwnProperty json "vector_layers") as [[|]|]; [|..|apply Hsame].
  - destruct (getProp json "vector_layers" ≫= iterate) as [items|]; [|apply Hsame].
    exists (push_layer_ids key items (sources (state w))).1.
    split; [|right; by exists items].
    destruct (push_layer_ids key items (sources (state w))).2.
    + rewrite flush_setState. unfold flush; simpl. by rewrite Hpend.
    + unfold flush; simpl. by rewrite Hpend.
  - exists (sources (state w)). split; [|by left].
    unfold flush; simpl. rewrite Hpend. by destruct (state w).
Qed.

Lemma fetchResolved_effects (key url : string) (r : FetchResult) (w : World) :
  ∃ es, effects (fetchResolved key url r w) = effects w ++ es
        ∧ fetches es = [] ∧ saves es = [] ∧ validations es = [].
Proof.
  assert (Hfail : ∀ w0, effects w0 = effects w →
    ∃ es, effects (emit (EConsoleError "Failed to process sources for '%s'" url) w0)
          = effects w ++ es
          ∧ fetches es = [] ∧ saves es = [] ∧ validations es = []).
  { intros w0 Hw0. eexists. simpl. rewrite Hw0. done. }
  unfold fetchResolved.
  destruct r as [|json]; [by apply Hfail|].
  destruct (hasOwnProperty json "vector_layers") as [[|]|]; [|..|by apply Hfail].
  - destruct (getProp json "vector_layers" ≫= iterate) as [items|]; [|by apply Hfail].
    destruct (push_layer_ids key items (sources (state w))).2.
    + rewrite setState_effects. eexists. simpl. done.
    + by apply Hfail.
  - exists []. by rewrite app_nil_r.
Qed.

(** X10: however a fetch ends, its handlers leave errors, infos, the
    document, the selection and the revision store alone, issue no fetch and
    save nothing; of the descriptors they touch the one of their own source
    only, never add or drop a key, never change a type, and only ever append
    to the layer names already there. *)
Theorem fetchResolved_touches_own_layers_only
    (key url : string) (r : FetchResult) (w : World) :
  pending w = [] →
  let w' := fetchResolved key url r w in
  errors (state (flush w')) = errors (state w)
  ∧ infos (state (flush w')) = infos (state w)
  ∧ mapStyle (state (flush w')) = mapStyle (state w)
  ∧ selectedLayerIndex (state (flush w')) = selectedLayerIndex (state w)
  ∧ revisionStore w' = revisionStore w
  ∧ fetches (new_effects w w') = []
  ∧ saves (new_effects w w') = []
  ∧ (∀ k, k ≠ key → sources (state (flush w')) !! k = sources (state w) !! k)
  ∧ match sources (state w) !! key with
    | None => sources (state (flush w')) !! key = None
    | Some d => ∃ more, sources (state (flush w')) !! key
                        = Some {| desc_type := desc_type d;
                                  desc_layers := desc_layers d ++ more |}
    end.
Proof.
  intros Hpend w'. subst w'.
  destruct (fetchResolved_state key url r w Hpend) as (srcs & -> & Hsrcs).
  destruct (fetchResolved_effects key url r w) as (es & Hes & Hf & Hs & _).
  unfold new_effects. rewrite Hes, drop_app_length. simpl.
  split_and!; [done|done|done|done| |done|done| |].
  - unfold fetchResolved.
    destruct r as [|json]; [done|].
    destruct (hasOwnProperty json "vector_layers") as [[|]|]; [|done..].
    destruct (getProp json "vector_layers" ≫= iterate) as [items|]; [|done].
    destruct (push_layer_ids key items (sources (state w))).2; [|done].
    by rewrite setState_revisionStore.
  - intros k Hk. destruct Hsrcs as [->|[items ->]]; [done|].
    by apply push_layer_ids_frame.
  - destruct Hsrcs as [->|[items ->]].
    + destruct (sources (state w) !! key) as [d|]; [|done].
      exists []. rewrite app_nil_r. by destruct d.
    + apply push_layer_ids_frame.
Qed.

Lemma fetchResolved_touches_own_layers_only_witness :
  let w := {| state := {| errors := ["layers: array expected"]; infos := [];
                          mapStyle := sample_document [plain_layer "water"] [];
                          selectedLayerIndex := 0;
                          sources := {["s1" := {| desc_type := "vector";
                                                  desc_layers := [] |}]} |};
              batching := false; pending := [];
              revisionStore := RevisionStore.empty; effects := [] |} in
  let w' := fetchResolved "s2" "https://x/tiles.json" (FetchJson roads_body) w in
  errors (state (flush w')) = ["layers: array expected"]
  ∧ sources (state (flush w')) !! "s1"
    = Some {| desc_type := "vector"; desc_layers := [] |}
  ∧ sources (state (flush w')) !! "s2" = None.
Proof.
  intros w w'.
  destruct (fetchResolved_touches_own_layers_only "s2" "https://x/tiles.json"
              (FetchJson roads_body) w eq_refl)
    as (He & _ & _ & _ & _ & _ & _ & Hother & Hkey).
  fold w' in He, Hother, Hkey.
  split_and!; [exact He|by rewrite Hother|exact Hkey].
Defined.

(** ** What undo and redo leave alone *)

(** X11: an undo or a redo rewrites the document and the info list and
    nothing else of the state: the error list, the selection and the source
    descriptors stay, no fetch is issued for the sources of the restored
    document, and no glyph or sprite download is asked for. *)
Theorem undo_redo_leave_the_rest
    (undoMessages redoMessages : Document → Document → list string) (w : World) :
  (∀ w', onUndo undoMessages w = Some w' →
     errors (state (flush w')) = errors (state (flush w))
     ∧ selectedLayerIndex (state (flush w')) = selectedLayerIndex (state (flush w))
     ∧ sources (state (flush w')) = sources (state (flush w))
     ∧ fetches (new_effects w w') = []
     ∧ font_requests (new_effects w w') = []
     ∧ icon_requests (new_effects w w') = [])
  ∧ (∀ w', onRedo redoMessages w = Some w' →
     errors (state (flush w')) = errors (state (flush w))
     ∧ selectedLayerIndex (state (flush w')) = selectedLayerIndex (state (flush w))
     ∧ sources (state (flush w')) = sources (state (flush w))
     ∧ fetches (new_effects w w') = []
     ∧ font_requests (new_effects w w') = []
     ∧ icon_requests (new_effects w w') = []).
Proof.
  split.
  - intros w'. unfold onUndo. cbv zeta.
    destruct (RevisionStore.undo (revisionStore w)).2 as [d|]; [|done].
    cbn [mbind option_bind]. intros [= <-].
    rewrite flush_setState. unfold new_effects. rewrite setState_effects.
    cbn [saveStyle emit with_revisionStore effects].
    rewrite drop_app_length. done.
  - intros w'. unfold onRedo. cbv zeta.
    destruct (RevisionStore.redo (revisionStore w)).2 as [d|]; [|done].
    cbn [mbind option_bind]. intros [= <-].
    rewrite flush_setState. unfold new_effects. rewrite setState_effects.
    cbn [saveStyle emit with_revisionStore effects].
    rewrite drop_app_length. done.
Qed.

Lemma undo_redo_leave_the_rest_witness :
  let older :=
    sample_document []
      [("s1", {| src_type := "vector"; src_url := Some "https://x/tiles.json" |})] in
  let newer := sample_document [] [] in
  let w := {| state := {| errors := ["layers: array expected"]; infos := [];
                          mapStyle := newer; selectedLayerIndex := 3; sources := ∅ |};
              batching := false; pending := [];
              revisionStore := {| RevisionStore.revisions := [older; newer];
                                  RevisionStore.currentIdx := 1 |};
              effects := [] |} in
  ∃ w', onUndo describe_undo w = Some w'
        ∧ mapStyle (state (flush w')) = older
        ∧ errors (state (flush w')) = ["layers: array expected"]
        ∧ selectedLayerIndex (state (flush w')) = 3%Z
        ∧ sources (state (flush w')) = ∅
        ∧ fetches (new_effects w w') = [].
Proof.
  intros older newer w. eexists. split; [reflexivity|].
  destruct (proj1 (undo_redo_leave_the_rest describe_undo describe_redo w) _ eq_refl)
    as (He & Hsel & Hsrc & Hf & _).
  split_and!; [reflexivity|exact He|exact Hsel|exact Hsrc|exact Hf].
Defined.

(** ** More on the layer operators *)

Lemma splice_delete {A} (i : nat) (l : list A) : splice i 1 [] l = delete i l.
Proof. unfold splice. simpl. by rewrite Nat.add_1_r, delete_take_drop. Qed.

Lemma splice_insert {A} (i : nat) (x : A) (l : list A) :
  splice i 0 [x] l = take i l ++ x :: drop i l.
Proof. unfold splice. by rewrite Nat.add_0_r. Qed.

Lemma indexOfLayer_fresh_prefix (before after : list Layer) (layer : Layer) :
  (∀ other, other ∈ before → layer_id other ≠ layer_id layer) →
  indexOfLayer (before ++ layer :: after) (layer_id layer) = Some (length before).
Proof.
  intros Hfresh. apply indexOfLayer_Some. exists layer. split_and!; [|done|].
  - by apply list_lookup_middle.
  - intros j other Hj Hlt. rewrite lookup_app_l in Hj by done.
    apply Hfresh. by eapply list_elem_of_lookup_2.
Qed.

(** X12: destroying the layer with id [X] cuts out the first layer that
    carries the id and nothing else: the list is one shorter, the layers
    before it keep their positions and those after it move up by one; with
    ids that are distinct no layer with id [X] is left.  That list is what
    the handler submits. *)
Theorem destroy_cuts_out_first_with_id
    (validate : Document → list ValidationError)
    (normalizeSourceURL : string → option string)
    (w : World) (X : string) :
  X ∈ layer_id <$> doc_layers (mapStyle (state w)) →
  let layers := doc_layers (mapStyle (state w)) in
  ∃ i removed,
    indexOfLayer layers X = Some i
    ∧ layers !! i = Some removed
    ∧ layer_id removed = X
    ∧ destroyedLayers layers X = Some (delete i layers)
    ∧ onLayerDestroy validate normalizeSourceURL X w
      = Some (onLayersChange validate normalizeSourceURL (delete i layers) w)
    ∧ S (length (delete i layers)) = length layers
    ∧ (∀ j, j < i → delete i layers !! j = layers !! j)
    ∧ (∀ j, i ≤ j → delete i layers !! j = layers !! S j)
    ∧ (NoDup (layer_id <$> layers) → X ∉ layer_id <$> delete i layers).
Proof.
  intros Hin layers.
  destruct (indexOfLayer_present layers X Hin) as [i Hidx].
  pose proof Hidx as (removed & Hi & Hid & _)%indexOfLayer_Some.
  pose proof (lookup_lt_Some _ _ _ Hi) as Hlt.
  exists i, removed.
  assert (Hdel : destroyedLayers layers X = Some (delete i layers)).
  { unfold destroyedLayers. rewrite Hidx. simpl. by rewrite splice_delete. }
  split_and!; [done..| | | | |].
  - unfold onLayerDestroy. fold layers. by rewrite Hdel.
  - rewrite length_delete by (by eexists). lia.
  - intros j Hj. by apply list_lookup_delete_lt.
  - intros j Hj. by apply list_lookup_delete_ge.
  - intros Hnd. rewrite list_fmap_delete.
    rewrite <- (take_drop_middle (layer_id <$> layers) i X) in Hnd
      by (by rewrite list_lookup_fmap, Hi; simpl; rewrite Hid).
    apply NoDup_app in Hnd as (_ & Hleft & Hright).
    apply NoDup_cons in Hright as [Hright _].
    rewrite delete_take_drop. intros [Hl|Hr]%elem_of_app; [|done].
    apply (Hleft X Hl). apply list_elem_of_here.
Qed.

Lemma destroy_cuts_out_first_with_id_witness :
  let w := sample_world
             (sample_document [plain_layer "water"; plain_layer "roads";
                               plain_layer "labels"] []) 0 false in
  destroyedLayers (doc_layers (mapStyle (state w))) "roads"
  = Some [plain_layer "water"; plain_layer "labels"].
Proof.
  intros w.
  assert (Hin : "roads" ∈ layer_id <$> doc_layers (mapStyle (state w))).
  { simpl. apply list_elem_of_further, list_elem_of_here. }
  destruct (destroy_cuts_out_first_with_id accept_all keep_url w "roads" Hin)
    as (i & removed & Hidx & _ & _ & Hdel & _).
  injection Hidx as <-. exact Hdel.
Defined.

(** X13: when no layer carries the id [X-copy] yet, copying [X] and then
    destroying [X-copy] gives the list back. *)
Theorem copy_then_destroy_copy_restores (layers : list Layer) (X : string) :
  X ∈ layer_id <$> layers →
  X +:+ "-copy" ∉ layer_id <$> layers →
  copiedLayers layers X ≫= (λ copied, destroyedLayers copied (X +:+ "-copy"))
  = Some layers.
Proof.
  intros Hin Hfresh.
  destruct (indexOfLayer_present layers X Hin) as [i Hidx].
  pose proof Hidx as (original & Hi & Hid & _)%indexOfLayer_Some.
  pose proof (lookup_lt_Some _ _ _ Hi) as Hlt.
  unfold copiedLayers. rewrite Hidx. cbn [mbind option_bind]. rewrite Hi.
  cbn [mbind option_bind]. rewrite splice_insert.
  assert (Hlen : length (take i layers) = i) by (rewrite length_take; lia).
  assert (Hname : layer_id (clonedLayer original) = X +:+ "-copy")
    by (unfold clonedLayer; simpl; by rewrite Hid).
  unfold destroyedLayers. rewrite <- Hname.
  rewrite indexOfLayer_fresh_prefix.
  - cbn [mbind option_bind]. rewrite splice_delete, delete_middle.
    by rewrite take_drop.
  - intros other Hother. rewrite Hname. intros E. apply Hfresh.
    apply list_elem_of_fmap. exists other. split; [done|].
    by apply (subseteq_take i layers).
Qed.

Lemma copy_then_destroy_copy_restores_witness :
  let layers := [plain_layer "water"; plain_layer "roads"] in
  copiedLayers layers "water" ≫= (λ copied, destroyedLayers copied "water-copy")
  = Some layers.
Proof.
  intros layers.
  apply (copy_then_destroy_copy_restores layers "water").
  - apply list_elem_of_here.
  - apply (bool_decide_unpack _). reflexivity.
Defined.

(** X14: renaming finds the first layer with the old id and changes its id
    alone, whatever the new id (an id already taken is not refused); when
    the new id is not in use, renaming back gives the list back. *)
Theorem rename_changes_id_only_and_round_trips
    (layers : list Layer) (oldId newId : string) :
  oldId ∈ layer_id <$> layers →
  ∃ i layer,
    indexOfLayer layers oldId = Some i
    ∧ layers !! i = Some layer
    ∧ renamedLayers layers oldId newId
      = Some (<[i := {| layer_id := newId; layer_layout := layer_layout layer;
                        layer_other := layer_other layer |}]> layers)
    ∧ (newId ∉ layer_id <$> layers →
       renamedLayers layers oldId newId ≫= (λ renamed, renamedLayers renamed newId oldId)
       = Some layers).
Proof.
  intros Hin.
  destruct (indexOfLayer_present layers oldId Hin) as [i Hidx].
  pose proof Hidx as (layer & Hi & Hid & _)%indexOfLayer_Some.
  pose proof (lookup_lt_Some _ _ _ Hi) as Hlt.
  exists i, layer.
  assert (Hren : renamedLayers layers oldId newId
                 = Some (<[i := {| layer_id := newId; layer_layout := layer_layout layer;
                                   layer_other := layer_other layer |}]> layers)).
  { unfold renamedLayers. rewrite Hidx. cbn [mbind option_bind]. by rewrite Hi. }
  split_and!; [done..|].
  intros Hfresh. rewrite Hren. cbn [mbind option_bind].
  unfold renamedLayers.
  assert (Hidx' : indexOfLayer
                    (<[i := {| layer_id := newId; layer_layout := layer_layout layer;
                               layer_other := layer_other layer |}]> layers) newId
                  = Some i).
  { apply indexOfLayer_Some. eexists. split_and!.
    - by apply list_lookup_insert_eq.
    - done.
    - intros j other Hj Hjlt. rewrite list_lookup_insert_ne in Hj by lia.
      intros E. apply Hfresh. apply list_elem_of_fmap. exists other.
      split; [done|]. by eapply list_elem_of_lookup_2. }
  rewrite Hidx'. cbn [mbind option_bind].
  rewrite list_lookup_insert_eq by done. cbn [mbind option_bind].
  rewrite list_insert_insert_eq. simpl. f_equal.
  apply list_insert_id. rewrite Hi. f_equal. destruct layer; simpl in *. by subst.
Qed.

Lemma rename_changes_id_only_and_round_trips_witness :
  let layers := [plain_layer "water"; plain_layer "roads"] in
  renamedLayers layers "roads" "streets"
  ≫= (λ renamed, renamedLayers renamed "streets" "roads")
  = Some layers.
Proof.
  intros layers.
  destruct (rename_changes_id_only_and_round_trips layers "roads" "streets")
    as (i & layer & _ & _ & _ & Hback).
  - apply list_elem_of_further, list_elem_of_here.
  - apply Hback. apply (bool_decide_unpack _). reflexivity.
Defined.

(** X15: replacing puts the given layer where the first layer with its id
    was and touches no other position; looking the id up afterwards finds
    the given layer at the same place. *)
Theorem replace_puts_layer_at_its_id (layers : list Layer) (layer : Layer) :
  layer_id layer ∈ layer_id <$> layers →
  ∃ i replaced,
    indexOfLayer layers (layer_id layer) = Some i
    ∧ replacedLayers layers layer = Some replaced
    ∧ length replaced = length layers
    ∧ replaced !! i = Some layer
    ∧ (∀ j, j ≠ i → replaced !! j = layers !! j)
    ∧ indexOfLayer replaced (layer_id layer) = Some i.
Proof.
  intros Hin.
  destruct (indexOfLayer_present layers (layer_id layer) Hin) as [i Hidx].
  pose proof Hidx as (found & Hi & Hid & _)%indexOfLayer_Some.
  pose proof (lookup_lt_Some _ _ _ Hi) as Hlt.
  exists i, (<[i := layer]> layers). split_and!.
  - done.
  - unfold replacedLayers. by rewrite Hidx.
  - apply length_insert.
  - by apply list_lookup_insert_eq.
  - intros j Hj. by apply list_lookup_insert_ne.
  - by apply indexOfLayer_insert_same_id.
Qed.

Lemma replace_puts_layer_at_its_id_witness :
  let layers := [plain_layer "water"; plain_layer "roads"] in
  let hidden := toggledLayer (plain_layer "roads") in
  ∃ i replaced,
    replacedLayers layers hidden = Some replaced
    ∧ replaced !! i = Some hidden
    ∧ indexOfLayer replaced "roads" = Some i.
Proof.
  intros layers hidden.
  destruct (replace_puts_layer_at_its_id layers hidden)
    as (i & replaced & _ & Hrep & _ & Hat & _ & Hfind).
  - apply list_elem_of_further, list_elem_of_here.
  - exists i, replaced. split_and!; [exact Hrep|exact Hat|exact Hfind].
Defined.

(** ** Moving, selecting and what the editor shows *)

Lemma arrayMove_lookup {A} (l : list A) (from to : nat) :
  from < length l → to < length l →
  arrayMove l from to !! to = l !! from.
Proof.
  intros Hfrom Hto. unfold arrayMove.
  destruct (lookup_lt_is_Some_2 l from Hfrom) as [x Hx]. rewrite Hx.
  rewrite splice_insert, splice_delete.
  assert (Hlen : length (take to (delete from l)) = to).
  { rewrite length_take, length_delete by (by eexists). lia. }
  by apply list_lookup_middle.
Qed.

Lemma arrayMove_back {A} (l : list A) (from to : nat) :
  from < length l → to < length l →
  arrayMove (arrayMove l from to) to from = l.
Proof.
  intros Hfrom Hto.
  pose proof (arrayMove_lookup l from to Hfrom Hto) as Hat.
  destruct (lookup_lt_is_Some_2 l from Hfrom) as [x Hx]. rewrite Hx in Hat.
  unfold arrayMove at 1. rewrite Hat.
  unfold arrayMove. rewrite Hx.
  rewrite !splice_insert, !splice_delete.
  assert (Hlen : length (take to (delete from l)) = to).
  { rewrite length_take, length_delete by (by eexists). lia. }
  assert (Hdel : delete to (take to (delete from l) ++ x :: drop to (delete from l))
                 = delete from l).
  { rewrite <- Hlen at 1. rewrite delete_middle. apply take_drop. }
  rewrite Hdel, delete_take_drop.
  assert (Hlen' : length (take from l) = from) by (rewrite length_take; lia).
  rewrite take_app_length', drop_app_length' by done.
  by apply take_drop_middle.
Qed.

Lemma clamp_inside (x last : Z) : (0 ≤ x ≤ last)%Z → clamp x 0 last = x.
Proof. intros Hx. unfold clamp. repeat case_bool_decide; lia. Qed.

(** X16: an accepted move from [o] to [n] followed by an accepted move from
    [n] to [o] gives the document back; the selection comes back too, unless
    it was at [n], in which case it ends at [o]. *)
Theorem move_there_and_back
    (validate : Document → list ValidationError)
    (normalizeSourceURL : string → option string)
    (w : World) (o n : Z) :
  pending w = [] →
  let layers := doc_layers (mapStyle (state w)) in
  (0 ≤ o < Z.of_nat (length layers))%Z →
  (0 ≤ n < Z.of_nat (length layers))%Z →
  o ≠ n →
  validate (with_layers (mapStyle (state w))
              (arrayMove layers (Z.to_nat o) (Z.to_nat n))) = [] →
  validate (mapStyle (state w)) = [] →
  let there := flush (onMoveLayer validate normalizeSourceURL o n w) in
  let back := flush (onMoveLayer validate normalizeSourceURL n o there) in
  doc_layers (mapStyle (state there)) = arrayMove layers (Z.to_nat o) (Z.to_nat n)
  ∧ mapStyle (state back) = mapStyle (state w)
  ∧ selectedLayerIndex (state back)
    = (if bool_decide (selectedLayerIndex (state w) = n)
       then o else selectedLayerIndex (state w)).
Proof.
  intros Hpend layers Ho Hn Hne Hok1 Hok2 there back.
  set (last := (Z.of_nat (length layers) - 1)%Z).
  assert (Hco : clamp o 0 last = o) by (apply clamp_inside; lia).
  assert (Hcn : clamp n 0 last = n) by (apply clamp_inside; lia).
  destruct (onMoveLayer_state validate normalizeSourceURL o n w Hpend) as [Hsel1 Hdoc1].
  { fold layers last. by rewrite Hco, Hcn. }
  fold layers last in Hsel1, Hdoc1. rewrite Hco, Hcn in Hsel1, Hdoc1.
  rewrite bool_decide_eq_true_2 in Hdoc1 by done. fold there in Hsel1, Hdoc1.
  assert (Hlen1 : length (doc_layers (mapStyle (state there))) = length layers).
  { rewrite Hdoc1. simpl. apply length_arrayMove. }
  assert (Hpend1 : pending there = []) by done.
  destruct (onMoveLayer_state validate normalizeSourceURL n o there Hpend1)
    as [Hsel2 Hdoc2].
  { rewrite Hlen1. fold last. rewrite Hco, Hcn. congruence. }
  rewrite Hlen1 in Hsel2, Hdoc2. fold last in Hsel2, Hdoc2.
  rewrite Hco, Hcn in Hsel2, Hdoc2. fold back in Hsel2, Hdoc2.
  assert (Hback : with_layers (mapStyle (state there))
                    (arrayMove (doc_layers (mapStyle (state there)))
                       (Z.to_nat n) (Z.to_nat o))
                  = mapStyle (state w)).
  { rewrite Hdoc1. simpl. rewrite with_layers_twice.
    rewrite arrayMove_back by lia. apply with_layers_same. }
  rewrite Hback, bool_decide_eq_true_2 in Hdoc2 by done.
  split_and!; [by rewrite Hdoc1|done|].
  rewrite Hsel2, Hsel1.
  repeat case_bool_decide; congruence.
Qed.

Lemma move_there_and_back_witness :
  let a := plain_layer "A" in
  let b := plain_layer "B" in
  let c := plain_layer "C" in
  let w := sample_world (sample_document [a; b; c] []) 0 true in
  let there := flush (onMoveLayer accept_all keep_url 0 2 w) in
  let back := flush (onMoveLayer accept_all keep_url 2 0 there) in
  doc_layers (mapStyle (state there)) = [b; c; a]
  ∧ mapStyle (state back) = sample_document [a; b; c] []
  ∧ selectedLayerIndex (state back) = 0%Z.
Proof.
  intros a b c w there back.
  assert (H0 : (0 ≤ 0 < Z.of_nat (length (doc_layers (mapStyle (state w)))))%Z)
    by (simpl; lia).
  assert (H2 : (0 ≤ 2 < Z.of_nat (length (doc_layers (mapStyle (state w)))))%Z)
    by (simpl; lia).
  assert (Hne : 0%Z ≠ 2%Z) by lia.
  exact (move_there_and_back accept_all keep_url w 0 2 eq_refl H0 H2 Hne eq_refl eq_refl).
Defined.

(** X17: when the layer that is moved is the selected one and the move is
    accepted, the editor still shows that layer afterwards. *)
Theorem moved_selected_layer_stays_selected
    (validate : Document → list ValidationError)
    (normalizeSourceURL : string → option string)
    (w : World) (oldIndex newIndex : Z) :
  pending w = [] →
  let layers := doc_layers (mapStyle (state w)) in
  let last := (Z.of_nat (length layers) - 1)%Z in
  let o := clamp oldIndex 0 last in
  let n := clamp newIndex 0 last in
  o ≠ n →
  o = selectedLayerIndex (state w) →
  validate (with_layers (mapStyle (state w))
              (arrayMove layers (Z.to_nat o) (Z.to_nat n))) = [] →
  selectedLayer (state (flush (onMoveLayer validate normalizeSourceURL oldIndex newIndex w)))
  = selectedLayer (state w)
  ∧ is_Some (selectedLayer (state w)).
Proof.
  intros Hpend layers last o n Hne Hsel Hok.
  destruct (onMoveLayer_state validate normalizeSourceURL oldIndex newIndex w Hpend Hne)
    as [Hsel' Hdoc'].
  fold layers last o n in Hsel', Hdoc'.
  rewrite bool_decide_eq_true_2 in Hsel', Hdoc' by done.
  destruct (arrayMove_in_range layers oldIndex newIndex Hne) as [Ho Hn].
  fold last o n in Ho, Hn.
  pose proof (lookup_lt_is_Some_1 _ _ Ho) as Hlto.
  pose proof (lookup_lt_is_Some_1 _ _ Hn) as Hltn.
  assert (0 ≤ last)%Z by (subst last; lia).
  pose proof (clamp_in_range oldIndex last ltac:(done)) as Hor.
  pose proof (clamp_in_range newIndex last ltac:(done)) as Hnr.
  fold o in Hor. fold n in Hnr.
  assert (Hshown : selectedLayer (state w) = layers !! Z.to_nat o).
  { unfold selectedLayer. cbv zeta. fold layers. rewrite <- Hsel.
    rewrite !bool_decide_eq_true_2 by lia. done. }
  split; [|by rewrite Hshown].
  rewrite Hshown. unfold selectedLayer. cbv zeta.
  rewrite Hsel', Hdoc'. simpl. rewrite length_arrayMove.
  rewrite !bool_decide_eq_true_2 by lia.
  by apply arrayMove_lookup.
Qed.

Lemma moved_selected_layer_stays_selected_witness :
  let a := plain_layer "A" in
  let b := plain_layer "B" in
  let c := plain_layer "C" in
  let w := sample_world (sample_document [a; b; c] []) 0 true in
  selectedLayer (state (flush (onMoveLayer accept_all keep_url 0 5 w))) = Some a.
Proof.
  intros a b c w.
  assert (Hne : clamp 0 0 (Z.of_nat (length (doc_layers (mapStyle (state w)))) - 1)
                ≠ clamp 5 0 (Z.of_nat (length (doc_layers (mapStyle (state w)))) - 1))
    by (vm_compute; discriminate).
  rewrite (proj1 (moved_selected_layer_stays_selected accept_all keep_url w 0 5
                    eq_refl Hne eq_refl eq_refl)).
  reflexivity.
Defined.

(** X18: selecting an id a layer carries points the selection at the first
    such layer, which is then the one the editor shows; the document is not
    touched and nothing is submitted. *)
Theorem select_shows_layer_with_id (w : World) (X : string) :
  pending w = [] →
  X ∈ layer_id <$> doc_layers (mapStyle (state w)) →
  ∃ w' i layer,
    onLayerSelect X w = Some w'
    ∧ indexOfLayer (doc_layers (mapStyle (state w))) X = Some i
    ∧ selectedLayerIndex (state (flush w')) = Z.of_nat i
    ∧ selectedLayer (state (flush w')) = Some layer
    ∧ layer_id layer = X
    ∧ mapStyle (state (flush w')) = mapStyle (state w)
    ∧ effects w' = effects w
    ∧ revisionStore w' = revisionStore w.
Proof.
  intros Hpend Hin.
  destruct (indexOfLayer_present _ X Hin) as [i Hidx].
  pose proof Hidx as (layer & Hi & Hid & _)%indexOfLayer_Some.
  pose proof (lookup_lt_Some _ _ _ Hi) as Hlt.
  eexists _, i, layer. unfold onLayerSelect. rewrite Hidx. cbn [mbind option_bind].
  split; [reflexivity|]. fold (selection (Z.of_nat i)).
  destruct (setState_selection (Z.of_nat i) w Hpend) as (_ & Hsel & Hdoc).
  rewrite setState_effects, setState_revisionStore.
  split_and!; [done|done| |done|done|done|done].
  unfold selectedLayer. cbv zeta. rewrite Hsel, Hdoc.
  rewrite !bool_decide_eq_true_2 by lia. by rewrite Nat2Z.id.
Qed.

Lemma select_shows_layer_with_id_witness :
  let w := sample_world (sample_document [plain_layer "water"; plain_layer "roads"] [])
             0 true in
  ∃ w', onLayerSelect "roads" w = Some w'
        ∧ selectedLayer (state (flush w')) = Some (plain_layer "roads").
Proof.
  intros w.
  destruct (select_shows_layer_with_id w "roads" eq_refl)
    as (w' & i & layer & Hsome & Hidx & _ & Hshown & _).
  - simpl. apply list_elem_of_further, list_elem_of_here.
  - exists w'. split; [exact Hsome|].
    injection Hsome as <-. reflexivity.
Defined.

(** X19: an accepted destroy does not move the selection index, so what the
    editor shows afterwards is read off the old list: the same layer when
    the destroyed one came after the selection, and otherwise the layer that
    followed the selected one, or nothing when there was none. *)
Theorem destroy_shifts_what_is_selected
    (validate : Document → list ValidationError)
    (normalizeSourceURL : string → option string)
    (w : World) (X : string) (i : nat) :
  pending w = [] →
  let layers := doc_layers (mapStyle (state w)) in
  let sel := selectedLayerIndex (state w) in
  indexOfLayer layers X = Some i →
  (0 ≤ sel)%Z →
  validate (with_layers (mapStyle (state w)) (delete i layers)) = [] →
  ∃ w', onLayerDestroy validate normalizeSourceURL X w = Some w'
        ∧ selectedLayerIndex (state (flush w')) = sel
        ∧ selectedLayer (state (flush w'))
          = layers !! (if bool_decide (sel < Z.of_nat i)%Z
                       then Z.to_nat sel else S (Z.to_nat sel)).
Proof.
  intros Hpend layers sel Hidx Hsel Hok.
  pose proof (indexOfLayer_non_empty _ _ _ Hidx) as [Hne Hlt]. fold layers in Hlt.
  eexists. unfold onLayerDestroy, destroyedLayers. fold layers. rewrite Hidx.
  cbn [mbind option_bind]. rewrite splice_delete. split; [reflexivity|].
  destruct (onLayersChange_state validate normalizeSourceURL (delete i layers) w Hpend)
    as [Hsel' Hdoc'].
  rewrite bool_decide_eq_true_2 in Hdoc' by done.
  split; [done|].
  unfold selectedLayer. cbv zeta. rewrite Hsel', Hdoc'. simpl. fold sel layers.
  rewrite (bool_decide_eq_true_2 (0 ≤ sel)%Z) by done.
  assert (Hlen : length (delete i layers) = length layers - 1)
    by (rewrite length_delete; [lia|by apply lookup_lt_is_Some_2]).
  destruct (decide (sel < Z.of_nat i)%Z) as [Hbefore|Hafter].
  - rewrite (bool_decide_eq_true_2 (sel < _)%Z) by done.
    rewrite bool_decide_eq_true_2 by lia.
    apply list_lookup_delete_lt. lia.
  - rewrite (bool_decide_eq_false_2 (sel < _)%Z) by done.
    case_bool_decide as Hpos.
    + apply list_lookup_delete_ge. lia.
    + symmetry. apply lookup_ge_None. lia.
Qed.

Lemma destroy_shifts_what_is_selected_witness :
  let w := sample_world
             (sample_document [plain_layer "water"; plain_layer "roads"] []) 1 true in
  ∃ w', onLayerDestroy accept_all keep_url "roads" w = Some w'
        ∧ selectedLayerIndex (state (flush w')) = 1%Z
        ∧ selectedLayer (state (flush w')) = None.
Proof.
  intros w.
  assert (Hsel : (0 ≤ selectedLayerIndex (state w))%Z) by (simpl; lia).
  exact (destroy_shifts_what_is_selected accept_all keep_url w "roads" 1
           eq_refl eq_refl Hsel eq_refl).
Defined.

(** X20: after a submit the message panel is drawn exactly when the
    validator rejected the candidate or info messages of an earlier undo or
    redo are still there. *)
Theorem panel_after_submit
    (validate : Document → list ValidationError)
    (normalizeSourceURL : string → option string)
    (newStyle : Document) (save : bool) (w : World) :
  bottomPanelShown
    (state (flush (onStyleChanged validate normalizeSourceURL newStyle save w)))
  = negb (bool_decide (validate newStyle = []))
    || negb (bool_decide (infos (state (flush w)) = [])).
Proof.
  destruct (onStyleChanged_state validate normalizeSourceURL newStyle save w)
    as (He & Hi & _ & _).
  unfold bottomPanelShown. rewrite He, Hi, length_fmap.
  destruct (validate newStyle) as [|e es], (infos (state (flush w))) as [|m ms];
    simpl; done.
Qed.

(** ** Dialogs and shortcuts *)

(** X21: toggling a dialog flips that dialog's flag (a flag never set counts
    as closed) and no other; inspect mode is untouched; only the survey
    dialog writes to the browser's storage; and two toggles of a dialog whose
    flag is set give the flags back. *)
Theorem toggleModal_flips_one_dialog (modalName : string) (ui : Ui) :
  isOpen (toggleModal modalName ui) !! modalName
    = Some (negb (default false (isOpen ui !! modalName)))
  ∧ (∀ other, other ≠ modalName →
       isOpen (toggleModal modalName ui) !! other = isOpen ui !! other)
  ∧ inspectModeEnabled (toggleModal modalName ui) = inspectModeEnabled ui
  ∧ (modalName ≠ "survey" →
       localStorage (toggleModal modalName ui) = localStorage ui)
  ∧ (is_Some (isOpen ui !! modalName) →
       isOpen (toggleModal modalName (toggleModal modalName ui)) = isOpen ui).
Proof.
  split_and!.
  - apply lookup_insert_eq.
  - intros other Hne. by apply lookup_insert_ne.
  - done.
  - intros Hne. unfold toggleModal. simpl. by rewrite bool_decide_eq_false_2.
  - intros [b Hb]. unfold toggleModal. simpl.
    rewrite lookup_insert_eq, insert_insert_eq, Hb. simpl.
    rewrite negb_involutive. by apply insert_id.
Qed.

(** X22: a start with no [survey] entry in the browser's storage opens the
    survey dialog and no other; toggling the survey dialog writes the entry,
    so the next start has every dialog closed. *)
Theorem survey_opens_until_toggled (storage : gmap string string) (ui : Ui) :
  (∀ name, name ∈ ["settings"; "sources"; "open"; "shortcuts"; "export"] →
     initialIsOpen storage !! name = Some false)
  ∧ (storage !! "survey" = None → initialIsOpen storage !! "survey" = Some true)
  ∧ initialIsOpen (localStorage (toggleModal "survey" ui)) !! "survey" = Some false.
Proof.
  split_and!.
  - intros name Hin. unfold initialIsOpen.
    repeat (apply elem_of_cons in Hin as [->|Hin]; [reflexivity|]).
    by apply elem_of_nil in Hin.
  - intros Hnone. unfold initialIsOpen. rewrite lookup_insert_eq, Hnone.
    by rewrite bool_decide_eq_false_2 by (by intros [? ?]).
  - unfold initialIsOpen, toggleModal. simpl.
    rewrite !lookup_insert_eq.
    by rewrite bool_decide_eq_true_2 by (by eexists).
Qed.

Lemma onKeyUp_shortcut (code : Z) (ui : Ui) :
  code ≠ keyCode_of "esc" →
  activeElement ui = Body →
  onKeyUp code ui
  = match list_find (λ shortcut : Z * Shortcut, shortcut.1 = code) shortcuts with
    | Some (_, shortcut) => runShortcut shortcut.2 ui
    | None => ui
    end.
Proof.
  intros Hesc Hbody. unfold onKeyUp.
  rewrite bool_decide_eq_false_2 by done.
  by rewrite Hbody.
Qed.

(** X23: the escape key only takes the focus back to the body; with the
    focus anywhere but on the body every other key is ignored; and no key
    ever touches the survey dialog or the browser's storage. *)
Theorem onKeyUp_needs_focus_on_body (code : Z) (ui : Ui) :
  (code = 27%Z →
     onKeyUp code ui
     = {| isOpen := isOpen ui; inspectModeEnabled := inspectModeEnabled ui;
          localStorage := localStorage ui; activeElement := Body;
          canvasMounted := canvasMounted ui |})
  ∧ (code ≠ 27%Z → activeElement ui ≠ Body → onKeyUp code ui = ui)
  ∧ isOpen (onKeyUp code ui) !! "survey" = isOpen ui !! "survey"
  ∧ localStorage (onKeyUp code ui) = localStorage ui
  ∧ canvasMounted (onKeyUp code ui) = canvasMounted ui.
Proof.
  assert (Hrun : ∀ s, (∃ c, (c, s) ∈ shortcuts) →
    isOpen (runShortcut s ui) !! "survey" = isOpen ui !! "survey"
    ∧ localStorage (runShortcut s ui) = localStorage ui
    ∧ canvasMounted (runShortcut s ui) = canvasMounted ui).
  { intros s [c Hin]. unfold shortcuts in Hin.
    repeat (apply elem_of_cons in Hin as [[= -> ->]|Hin];
            [simpl; rewrite ?lookup_insert_ne by done;
             try (destruct (canvasMounted ui) eqn:E; simpl; rewrite ?E); done|]).
    by apply elem_of_nil in Hin. }
  split_and!.
  - intros ->. unfold onKeyUp. by rewrite bool_decide_eq_true_2.
  - intros Hesc Hfocus. unfold onKeyUp.
    rewrite bool_decide_eq_false_2 by done.
    by rewrite bool_decide_eq_false_2.
  - unfold onKeyUp. case_bool_decide; [done|]. case_bool_decide; [|done].
    destruct (list_find _ shortcuts) as [[j [c s]]|] eqn:Hfind; [|done].
    apply list_find_Some in Hfind as (Hj & _ & _). simpl.
    apply Hrun. exists c. by eapply list_elem_of_lookup_2.
  - unfold onKeyUp. case_bool_decide; [done|]. case_bool_decide; [|done].
    destruct (list_find _ shortcuts) as [[j [c s]]|] eqn:Hfind; [|done].
    apply list_find_Some in Hfind as (Hj & _ & _). simpl.
    apply Hrun. exists c. by eapply list_elem_of_lookup_2.
  - unfold onKeyUp. case_bool_decide; [done|]. case_bool_decide; [|done].
    destruct (list_find _ shortcuts) as [[j [c s]]|] eqn:Hfind; [|done].
    apply list_find_Some in Hfind as (Hj & _ & _). simpl.
    apply Hrun. exists c. by eapply list_elem_of_lookup_2.
Qed.

(** X24: with the focus on the body every entry of the shortcut table is
    reached by its key code (no entry hides another, none sits on the
    escape key), and a key code outside the table, escape apart, does
    nothing. *)
Theorem onKeyUp_runs_the_table (ui : Ui) :
  activeElement ui = Body →
  (∀ code shortcut, (code, shortcut) ∈ shortcuts →
     onKeyUp code ui = runShortcut shortcut ui)
  ∧ (∀ code, code ≠ 27%Z → code ∉ shortcuts.*1 → onKeyUp code ui = ui).
Proof.
  intros Hbody. split.
  - intros code shortcut Hin. unfold shortcuts in Hin.
    repeat (apply elem_of_cons in Hin as [[= -> ->]|Hin];
            [by rewrite onKeyUp_shortcut by done|]).
    by apply elem_of_nil in Hin.
  - intros code Hesc Hout. rewrite onKeyUp_shortcut by done.
    destruct (list_find _ shortcuts) as [[j [c s]]|] eqn:Hfind; [|done].
    apply list_find_Some in Hfind as (Hj & Hc & _). simpl in Hc. subst c.
    destruct Hout. apply list_elem_of_fmap. exists (code, s).
    split; [done|]. by eapply list_elem_of_lookup_2.
Qed.

Lemma onKeyUp_runs_the_table_witness :
  let ui := {| isOpen := initialIsOpen {["survey" := ""]};
               inspectModeEnabled := false;
               localStorage := {["survey" := ""]};
               activeElement := Body; canvasMounted := true |} in
  isOpen (onKeyUp 79 ui) !! "open" = Some true
  ∧ inspectModeEnabled (onKeyUp 73 ui) = true
  ∧ activeElement (onKeyUp 77 ui) = MapCanvas
  ∧ onKeyUp 79 (onKeyUp 77 ui) = onKeyUp 77 ui
  ∧ onKeyUp 65 ui = ui.
Proof.
  intros ui.
  destruct (onKeyUp_runs_the_table ui eq_refl) as [Htable Hout].
  split_and!.
  - rewrite (Htable 79%Z (ShortcutModal "open")); [reflexivity|].
    apply list_elem_of_further, list_elem_of_here.
  - rewrite (Htable 73%Z ShortcutInspect); [reflexivity|].
    do 5 apply list_elem_of_further. apply list_elem_of_here.
  - rewrite (Htable 77%Z ShortcutMap); [reflexivity|].
    do 6 apply list_elem_of_further. apply list_elem_of_here.
  - reflexivity.
  - apply Hout; [discriminate|]. apply (bool_decide_unpack _). reflexivity.
Defined.

(** ** The defaults table *)

(** X25: [updateRootSpec] sets the [values] of one field of [$root] and
    nothing else: the field's other properties, the other fields and the
    rest of the specification stay; a later update of the same field
    replaces the earlier one, and updates of two different fields give the
    same table in either order. *)
Theorem updateRootSpec_sets_values_of_one_field
    (spec : StyleSpec) (fieldName : string) (newValues : JS) :
  let spec' := updateRootSpec spec fieldName newValues in
  (spec_root spec' !! fieldName ≫= (λ field : Props, field !! "values")) = Some newValues
  ∧ (∀ prop, prop ≠ "values" →
       (spec_root spec' !! fieldName ≫= (λ field : Props, field !! prop))
       = (spec_root spec !! fieldName ≫= (λ field : Props, field !! prop)))
  ∧ (∀ other, other ≠ fieldName → spec_root spec' !! other = spec_root spec !! other)
  ∧ spec_rest spec' = spec_rest spec
  ∧ (∀ later, updateRootSpec spec' fieldName later = updateRootSpec spec fieldName later)
  ∧ (∀ other values, other ≠ fieldName →
       updateRootSpec spec' other values
       = updateRootSpec (updateRootSpec spec other values) fieldName newValues).
Proof.
  intros spec'. subst spec'. unfold updateRootSpec. simpl. split_and!.
  - rewrite lookup_insert_eq. simpl. apply lookup_insert_eq.
  - intros prop Hprop. rewrite lookup_insert_eq. simpl.
    rewrite lookup_insert_ne by done.
    by destruct (spec_root spec !! fieldName).
  - intros other Hother. by apply lookup_insert_ne.
  - done.
  - intros later. f_equal.
    rewrite lookup_insert_eq. unfold default. simpl.
    by rewrite !insert_insert_eq.
  - intros other values Hother. f_equal.
    rewrite !lookup_insert_ne by done.
    by apply insert_insert_ne.
Qed.

(** ** Keys the undo/redo handler ignores *)

(** X26: the undo/redo handler does nothing for a key code other than 89
    and 90, nothing on a Mac platform without the meta key or for key code
    89, and nothing elsewhere without the ctrl key. *)
Theorem handleKeyPress_ignores_other_keys
    (undoMessages redoMessages : Document → Document → list string)
    (platform : string) (e : KeyEvent) (w : World) :
  let handle := handleKeyPress undoMessages redoMessages platform e w in
  (keyCode e ≠ 89%Z → keyCode e ≠ 90%Z → handle = Some w)
  ∧ (isMacPlatform platform = true → metaKey e = false → handle = Some w)
  ∧ (isMacPlatform platform = true → keyCode e = 89%Z → handle = Some w)
  ∧ (isMacPlatform platform = false → ctrlKey e = false → handle = Some w).
Proof.
  intros handle. subst handle. unfold handleKeyPress. split_and!.
  - intros H89 H90.
    rewrite !(bool_decide_eq_false_2 (keyCode e = 90%Z)) by done.
    rewrite !(bool_decide_eq_false_2 (keyCode e = 89%Z)) by done.
    rewrite !andb_false_r. by destruct (isMacPlatform platform).
  - intros -> ->. done.
  - intros -> ->. simpl. by rewrite !andb_false_r.
  - intros -> ->. done.
Qed.
